(** * AnalogueClock: the second-hand state machine of [clock.js]

    A shallow embedding of the per-frame logic of [class AnalogueClock]
    ([start], [stop], [_animationLoop]) and of the properties its
    specification states about it.

    JavaScript numbers are IEEE-754 binary64 values.  The arithmetic of
    the source is kept behind the interface [JsNumber], so that the very
    same transcription of the code runs
    - on Rocq's primitive [float] (binary64: what the program computes), and
    - on [Q] (exact rationals: the arithmetic the specification reasons in).
    Integer-valued quantities that come out of [Date] getters
    ([getSeconds], [getMilliseconds], ...) are kept in [Z]. *)

From Stdlib Require Import ZArith QArith Bool List Lia Lqa.
From Stdlib Require Import Ascii String DecimalString.
From Stdlib Require Import Floats.
From Stdlib Require Uint63.
Import ListNotations.

Set Warnings "-inexact-float".
Close Scope Q_scope.
Open Scope Z_scope.

(** ** Numbers *)

Declare Scope js_scope.
Delimit Scope js_scope with js.

(** The operations of a JavaScript number that [clock.js] uses. *)
Class JsNumber (num : Type) : Type := {
  of_Z     : Z -> num;            (* an integer-valued number *)
  add      : num -> num -> num;   (* a + b *)
  sub      : num -> num -> num;   (* a - b *)
  mul      : num -> num -> num;   (* a * b *)
  div      : num -> num -> num;   (* a / b *)
  ltb      : num -> num -> bool;  (* a < b;  a > b is [ltb b a] *)
  leb      : num -> num -> bool;  (* a <= b *)
  Math_max : num -> num -> num;   (* Math.max(a, b) *)
  Math_min : num -> num -> num    (* Math.min(a, b) *)
}.

Infix "+" := add : js_scope.
Infix "-" := sub : js_scope.
Infix "*" := mul : js_scope.
Infix "/" := div : js_scope.
Infix "<?" := ltb : js_scope.
Infix "<=?" := leb : js_scope.
Notation "a >? b" := (ltb b a) (at level 70, only parsing) : js_scope.

(** *** binary64 *)

Module Binary64.

(** The double that holds the integer [z] (exact for |z| < 2^53). *)
Definition of_Z (z : Z) : float :=
  match z with
  | Z0 => 0%float
  | Zpos _ => PrimFloat.of_uint63 (Uint63.of_Z z)
  | Zneg p => PrimFloat.opp (PrimFloat.of_uint63 (Uint63.of_Z (Zpos p)))
  end.

(** [Math.max]: NaN if either argument is NaN; [+0] is larger than [-0]. *)
Definition Math_max (x y : float) : float :=
  if PrimFloat.is_nan x || PrimFloat.is_nan y then PrimFloat.nan
  else if PrimFloat.ltb x y then y
  else if PrimFloat.ltb y x then x
  else if PrimFloat.is_zero x && PrimFloat.get_sign x then y
  else x.

(** [Math.min]: NaN if either argument is NaN; [-0] is smaller than [+0]. *)
Definition Math_min (x y : float) : float :=
  if PrimFloat.is_nan x || PrimFloat.is_nan y then PrimFloat.nan
  else if PrimFloat.ltb x y then x
  else if PrimFloat.ltb y x then y
  else if PrimFloat.is_zero x && negb (PrimFloat.get_sign x) then y
  else x.

End Binary64.

#[export] Instance float_JsNumber : JsNumber float := {|
  of_Z := Binary64.of_Z;
  add := PrimFloat.add;
  sub := PrimFloat.sub;
  mul := PrimFloat.mul;
  div := PrimFloat.div;
  ltb := PrimFloat.ltb;
  leb := PrimFloat.leb;
  Math_max := Binary64.Math_max;
  Math_min := Binary64.Math_min
|}.

(** *** Exact rationals *)

Module Exact.

Definition ltb (x y : Q) : bool := negb (Qle_bool y x).
Definition Math_max (x y : Q) : Q := if Qle_bool x y then y else x.
Definition Math_min (x y : Q) : Q := if Qle_bool x y then x else y.

End Exact.

#[export] Instance Q_JsNumber : JsNumber Q := {|
  of_Z := inject_Z;
  add := Qplus;
  sub := Qminus;
  mul := Qmult;
  div := Qdiv;
  ltb := Exact.ltb;
  leb := Qle_bool;
  Math_max := Exact.Math_max;
  Math_min := Exact.Math_min
|}.

(** ** The host: [Date] and [window.requestAnimationFrame] *)

(** [new Date()]: a wall-clock instant, in milliseconds of local time.
    The getters are those [_animationLoop] and [start] call. *)
Module Date.

Definition t : Type := Z.

Definition getHours (d : t) : Z := ((d / 3600000) mod 24)%Z.
Definition getMinutes (d : t) : Z := ((d / 60000) mod 60)%Z.
Definition getSeconds (d : t) : Z := ((d / 1000) mod 60)%Z.
Definition getMilliseconds (d : t) : Z := (d mod 1000)%Z.

End Date.

(** What [_drawHands] receives for one frame; [blur] is the value of
    [this.blurSecondHandEffect] it reads. *)
Record Frame (num : Type) : Type := {
  hourAngle   : num;
  minuteAngle : num;
  secondAngle : num;
  blur        : Z
}.
Arguments hourAngle {num} _.
Arguments minuteAngle {num} _.
Arguments secondAngle {num} _.
Arguments blur {num} _.

(** The window: the handle the next request gets, the requests that are
    pending, and the frames drawn so far (most recent first). *)
Record Host (num : Type) : Type := {
  nextHandle : Z;
  pending    : list Z;
  drawn      : list (Frame num)
}.
Arguments nextHandle {num} _.
Arguments pending {num} _.
Arguments drawn {num} _.

Definition requestAnimationFrame {num} (h : Host num) : Z * Host num :=
  (nextHandle h,
   {| nextHandle := nextHandle h + 1;
      pending := nextHandle h :: pending h;
      drawn := drawn h |}).

Definition cancelAnimationFrame {num} (id : Z) (h : Host num) : Host num :=
  {| nextHandle := nextHandle h;
     pending := filter (fun i => negb (i =? id)%Z) (pending h);
     drawn := drawn h |}.

Definition render {num} (f : Frame num) (h : Host num) : Host num :=
  {| nextHandle := nextHandle h;
     pending := pending h;
     drawn := f :: drawn h |}.

(** ** The clock object *)

(** [config.secondHandPhysics]. *)
Record SecondHandPhysics (num : Type) : Type := {
  creepDurationMs    : num;
  creepAngleDegrees  : num;
  overshootDegrees   : num;
  recoilDegrees      : num;
  motionBlurStrength : num
}.
Arguments creepDurationMs {num} _.
Arguments creepAngleDegrees {num} _.
Arguments overshootDegrees {num} _.
Arguments recoilDegrees {num} _.
Arguments motionBlurStrength {num} _.

(** [secondHandAnimationPhase] is a string in the source; [OTHER] stands
    for any string that is none of the four names, which is what the
    [default:] arm of the switch receives. *)
Inductive AnimationPhase : Type :=
  | SETTLED | CREEPING | OVERSHOOT | RECOIL | OTHER.

(** The "state variables for second hand physics" of the constructor. *)
Record SecondHand (num : Type) : Type := {
  lastSystemSecond             : Z;
  secondHandAnimationPhase     : AnimationPhase;
  targetSecondBaseAngle        : num;
  currentSecondHandVisualAngle : num;
  blurSecondHandEffect         : Z
}.
Arguments lastSystemSecond {num} _.
Arguments secondHandAnimationPhase {num} _.
Arguments targetSecondBaseAngle {num} _.
Arguments currentSecondHandVisualAngle {num} _.
Arguments blurSecondHandEffect {num} _.

(** The fields of an [AnalogueClock] that the animation reads or writes. *)
Record Clock (num : Type) : Type := {
  config           : SecondHandPhysics num;
  isRunning        : bool;
  animationFrameId : option Z;      (* [None] is [null] *)
  lastTimestamp    : num;
  hand             : SecondHand num
}.
Arguments config {num} _.
Arguments isRunning {num} _.
Arguments animationFrameId {num} _.
Arguments lastTimestamp {num} _.
Arguments hand {num} _.

(** [AnalogueClock.defaultConfig.secondHandPhysics], as the source
    writes it. *)
Definition defaultConfig : SecondHandPhysics float := {|
  creepDurationMs := 150%float;
  creepAngleDegrees := 2%float;
  overshootDegrees := 2%float;
  recoilDegrees := (-1.5)%float;
  motionBlurStrength := 12%float
|}.

(** The same numbers as rationals. *)
Definition defaultConfigQ : SecondHandPhysics Q := {|
  creepDurationMs := 150%Q;
  creepAngleDegrees := 2%Q;
  overshootDegrees := 2%Q;
  recoilDegrees := (- (3 # 2))%Q;
  motionBlurStrength := 12%Q
|}.

Section Animation.

Context {num : Type} `{JsNumber num}.
Local Open Scope js_scope.

(** [(seconds / 60) * 360]: the "normal angle" of a whole second
    (lines 141, 210, 269). *)
Definition secondBaseAngle (seconds : Z) : num :=
  (of_Z seconds / of_Z 60) * of_Z 360.

(** Line 201. *)
Definition hourAngleOf (currentHours currentMinutes : Z) : num :=
  (((of_Z (Z.rem currentHours 12) + of_Z currentMinutes / of_Z 60)
    / of_Z 12) * of_Z 360).

(** Line 202. *)
Definition minuteAngleOf (currentMinutes currentSeconds : Z) : num :=
  ((of_Z currentMinutes + of_Z currentSeconds / of_Z 60) / of_Z 60)
  * of_Z 360.

(** The constructor (lines 73-82), given the merged physics config. *)
Definition constructor (cfg : SecondHandPhysics num) : Clock num := {|
  config := cfg;
  isRunning := false;
  animationFrameId := None;
  lastTimestamp := of_Z (-1);
  hand := {|
    lastSystemSecond := -1;
    secondHandAnimationPhase := SETTLED;
    targetSecondBaseAngle := of_Z 0;
    currentSecondHandVisualAngle := of_Z 0;
    blurSecondHandEffect := 0
  |}
|}.

(** The hand [start] installs (lines 138-144). *)
Definition startHand (now : Date.t) : SecondHand num := {|
  lastSystemSecond := Z.rem (Date.getSeconds now + 59) 60;
  secondHandAnimationPhase := SETTLED;
  targetSecondBaseAngle := secondBaseAngle (Date.getSeconds now);
  currentSecondHandVisualAngle := secondBaseAngle (Date.getSeconds now);
  blurSecondHandEffect := 0
|}.

(** [start()] (lines 134-150). *)
Definition start (now : Date.t) (c : Clock num) (h : Host num)
  : Clock num * Host num :=
  if isRunning c then (c, h)
  else
    let (id, h') := requestAnimationFrame h in
    ({| config := config c;
        isRunning := true;
        animationFrameId := Some id;
        lastTimestamp := lastTimestamp c;
        hand := startHand now |}, h').

(** [stop()] (lines 155-163). *)
Definition stop (c : Clock num) (h : Host num) : Clock num * Host num :=
  if negb (isRunning c) then (c, h)
  else
    match animationFrameId c with
    | Some id =>
        ({| config := config c; isRunning := false;
            animationFrameId := None;
            lastTimestamp := lastTimestamp c; hand := hand c |},
         cancelAnimationFrame id h)
    | None =>
        ({| config := config c; isRunning := false;
            animationFrameId := None;
            lastTimestamp := lastTimestamp c; hand := hand c |}, h)
    end.

(** Line 205. *)
Definition newSecondDetected (s : SecondHand num) (currentSeconds : Z)
  : bool :=
  negb (currentSeconds =? lastSystemSecond s)%Z.

(** The body of [case "CREEPING":] (lines 244-266).  It is entered with
    the phase already [CREEPING], either from that case label or by
    falling through from [case "SETTLED":]. *)
Definition creepingCase (cfg : SecondHandPhysics num)
    (s : SecondHand num) (currentMilliseconds : Z) : SecondHand num :=
  let msUntilNextTick := (1000 - currentMilliseconds)%Z in
  if (of_Z msUntilNextTick >? creepDurationMs cfg)
     || (msUntilNextTick <? 0)%Z
  then
    {| lastSystemSecond := lastSystemSecond s;
       secondHandAnimationPhase := SETTLED;
       targetSecondBaseAngle := targetSecondBaseAngle s;
       currentSecondHandVisualAngle := targetSecondBaseAngle s;
       blurSecondHandEffect := 0 |}
  else
    let timeIntoCreepMs := creepDurationMs cfg - of_Z msUntilNextTick in
    let creepProgress := timeIntoCreepMs / creepDurationMs cfg in
    let creepProgress := Math_max (of_Z 0) (Math_min (of_Z 1) creepProgress) in
    let additionalCreepAngle := creepProgress * creepAngleDegrees cfg in
    {| lastSystemSecond := lastSystemSecond s;
       secondHandAnimationPhase := CREEPING;
       targetSecondBaseAngle := targetSecondBaseAngle s;
       currentSecondHandVisualAngle :=
         targetSecondBaseAngle s + additionalCreepAngle;
       blurSecondHandEffect := 0 |}.

(** "SECOND HAND PHYSICS LOGIC" (lines 204-273): one step of the state
    machine on the reading [(currentSeconds, currentMilliseconds)]. *)
Definition secondHandPhysics (cfg : SecondHandPhysics num)
    (s : SecondHand num) (currentSeconds currentMilliseconds : Z)
  : SecondHand num :=
  if newSecondDetected s currentSeconds then
    {| lastSystemSecond := currentSeconds;
       secondHandAnimationPhase := OVERSHOOT;
       targetSecondBaseAngle := secondBaseAngle currentSeconds;
       currentSecondHandVisualAngle :=
         secondBaseAngle currentSeconds + overshootDegrees cfg;
       blurSecondHandEffect := -1 |}
  else
    match secondHandAnimationPhase s with
    | OVERSHOOT =>
        {| lastSystemSecond := lastSystemSecond s;
           secondHandAnimationPhase := RECOIL;
           targetSecondBaseAngle := targetSecondBaseAngle s;
           currentSecondHandVisualAngle :=
             targetSecondBaseAngle s + recoilDegrees cfg;
           blurSecondHandEffect := 1 |}
    | RECOIL =>
        {| lastSystemSecond := lastSystemSecond s;
           secondHandAnimationPhase := SETTLED;
           targetSecondBaseAngle := targetSecondBaseAngle s;
           currentSecondHandVisualAngle := targetSecondBaseAngle s;
           blurSecondHandEffect := -1 |}
    | SETTLED =>
        let millisecondsUntilNextTick := (1000 - currentMilliseconds)%Z in
        if (of_Z millisecondsUntilNextTick <=? creepDurationMs cfg)
           && (0 <? millisecondsUntilNextTick)%Z
        then creepingCase cfg s currentMilliseconds
        else
          {| lastSystemSecond := lastSystemSecond s;
             secondHandAnimationPhase := SETTLED;
             targetSecondBaseAngle := targetSecondBaseAngle s;
             currentSecondHandVisualAngle := targetSecondBaseAngle s;
             blurSecondHandEffect := 0 |}
    | CREEPING => creepingCase cfg s currentMilliseconds
    | OTHER =>
        {| lastSystemSecond := lastSystemSecond s;
           secondHandAnimationPhase := SETTLED;
           targetSecondBaseAngle := secondBaseAngle currentSeconds;
           currentSecondHandVisualAngle := secondBaseAngle currentSeconds;
           blurSecondHandEffect := 0 |}
    end.

(** Line 183: [const maxRefreshRateHz = 50]. *)
Definition maxRefreshRateHz : Z := 50.

(** Line 184: the callback came too soon after the last processed one. *)
Definition throttled (c : Clock num) (timestamp : num) : bool :=
  (timestamp - lastTimestamp c) <? (of_Z 1000 / of_Z maxRefreshRateHz).

(** [_animationLoop(timestamp)] (lines 178-283); [now] is the value of
    [new Date()] on line 194. *)
Definition _animationLoop (timestamp : num) (now : Date.t)
    (c : Clock num) (h : Host num) : Clock num * Host num :=
  if negb (isRunning c) then (c, h)
  else if throttled c timestamp then
    let (id, h') := requestAnimationFrame h in
    ({| config := config c; isRunning := isRunning c;
        animationFrameId := Some id;
        lastTimestamp := lastTimestamp c; hand := hand c |}, h')
  else
    let currentHours := Date.getHours now in
    let currentMinutes := Date.getMinutes now in
    let currentSeconds := Date.getSeconds now in
    let currentMilliseconds := Date.getMilliseconds now in
    let hourAngle := hourAngleOf currentHours currentMinutes in
    let minuteAngle := minuteAngleOf currentMinutes currentSeconds in
    let s := secondHandPhysics (config c) (hand c)
               currentSeconds currentMilliseconds in
    let h1 :=
      render {| hourAngle := hourAngle; minuteAngle := minuteAngle;
                secondAngle := currentSecondHandVisualAngle s;
                blur := blurSecondHandEffect s |} h in
    if isRunning c then
      let (id, h2) := requestAnimationFrame h1 in
      ({| config := config c; isRunning := isRunning c;
          animationFrameId := Some id;
          lastTimestamp := timestamp; hand := s |}, h2)
    else
      ({| config := config c; isRunning := isRunning c;
          animationFrameId := animationFrameId c;
          lastTimestamp := timestamp; hand := s |}, h1).

End Animation.

(** ** Runs of frames, and the two outcomes of [case "CREEPING"] *)

(** A run of accepted frames: the hand after the state machine has
    consumed the readings taken at the instants [nows], oldest first. *)
Definition run {num} `{JsNumber num} (cfg : SecondHandPhysics num)
    (s : SecondHand num) (nows : list Date.t) : SecondHand num :=
  fold_left
    (fun s now =>
       secondHandPhysics cfg s (Date.getSeconds now) (Date.getMilliseconds now))
    nows s.

(** The clock and the window after the host has invoked the callback
    once per element of [calls], oldest first; each call carries the
    timestamp passed to [_animationLoop] and the instant [new Date()]
    would return during it. *)
Definition callbacks {num} `{JsNumber num} (calls : list (num * Date.t))
    (ch : Clock num * Host num) : Clock num * Host num :=
  fold_left
    (fun ch call => _animationLoop (fst call) (snd call) (fst ch) (snd ch))
    calls ch.

(** The hand the creep formula produces (lines 255-264). *)
Definition creptHand {num} `{JsNumber num} (cfg : SecondHandPhysics num)
    (s : SecondHand num) (ms : Z) : SecondHand num :=
  {| lastSystemSecond := lastSystemSecond s;
     secondHandAnimationPhase := CREEPING;
     targetSecondBaseAngle := targetSecondBaseAngle s;
     currentSecondHandVisualAngle :=
       (targetSecondBaseAngle s
        + Math_max (of_Z 0)
            (Math_min (of_Z 1)
               ((creepDurationMs cfg - of_Z (1000 - ms))
                / creepDurationMs cfg))
          * creepAngleDegrees cfg)%js;
     blurSecondHandEffect := 0 |}.

(** The hand at rest on its base angle, without blur. *)
Definition restingHand {num} (s : SecondHand num) : SecondHand num :=
  {| lastSystemSecond := lastSystemSecond s;
     secondHandAnimationPhase := SETTLED;
     targetSecondBaseAngle := targetSecondBaseAngle s;
     currentSecondHandVisualAngle := targetSecondBaseAngle s;
     blurSecondHandEffect := 0 |}.

(** ** What the order of numbers must satisfy

    The switch tests [msUntilNextTick <= creepDurationMs] in
    [case "SETTLED"] and then, after falling through,
    [msUntilNextTick > creepDurationMs] in [case "CREEPING"].  That the
    second test fails when the first succeeded is a fact about the order
    of numbers; it holds for doubles and for rationals. *)
Class JsOrder (num : Type) `{JsNumber num} : Prop := {
  leb_not_gt : forall x y : num, leb x y = true -> ltb y x = false
}.

(** ** The vocabulary of the properties *)

(** The invariant of C5. *)
Definition baseFollowsSecond {num} `{JsNumber num} (s : SecondHand num)
  : Prop :=
  targetSecondBaseAngle s = secondBaseAngle (lastSystemSecond s).

(** The bound of C4:
    [targetBaseAngle + min(0, recoilDegrees) <= visualAngle
     <= targetBaseAngle + max(creepAngleDegrees, overshootDegrees)]. *)
Definition excursionBounded {num} `{JsNumber num}
    (cfg : SecondHandPhysics num) (s : SecondHand num) : bool :=
  ((targetSecondBaseAngle s + Math_min (of_Z 0) (recoilDegrees cfg)
    <=? currentSecondHandVisualAngle s)
   && (currentSecondHandVisualAngle s
       <=? targetSecondBaseAngle s
           + Math_max (creepAngleDegrees cfg) (overshootDegrees cfg)))%js.

(** The minute angle as the specification's formula spells it:
    [(minutes + seconds/60) / 60 * 6 * 10].  To be compared with
    [minuteAngleOf], which is line 202 of the source. *)
Definition minuteAngleAsSpecified {num} `{JsNumber num}
    (minutes seconds : Z) : num :=
  (((of_Z minutes + of_Z seconds / of_Z 60) / of_Z 60) * of_Z 6 * of_Z 10)%js.

(** The integers [0 .. n-1]. *)
Definition upto (n : nat) : list Z := map Z.of_nat (seq 0 n).

(** [0 <= x < 360] on doubles. *)
Definition inCircle (x : float) : bool :=
  PrimFloat.leb 0 x && PrimFloat.ltb x 360.

(** ** Configurations and states used as examples *)

(** A configuration whose overshoot points backwards, and one whose
    recoil bounces forwards past the overshoot; the data model of the
    specification allows either sign for both. *)
Definition backwardOvershoot : SecondHandPhysics float :=
  {| creepDurationMs := 150%float;
     creepAngleDegrees := 2%float;
     overshootDegrees := (-5)%float;
     recoilDegrees := (-1.5)%float;
     motionBlurStrength := 12%float |}.

Definition forwardRecoil : SecondHandPhysics float :=
  {| creepDurationMs := 150%float;
     creepAngleDegrees := 2%float;
     overshootDegrees := 2%float;
     recoilDegrees := 3%float;
     motionBlurStrength := 12%float |}.

(** A configuration whose creep runs backwards, which the data model
    excludes ([creepAngleDegrees >= 0]). *)
Definition backwardCreep : SecondHandPhysics float :=
  {| creepDurationMs := 150%float;
     creepAngleDegrees := (-3)%float;
     overshootDegrees := 2%float;
     recoilDegrees := (-1.5)%float;
     motionBlurStrength := 12%float |}.

(** The default configuration with [overshootDegrees] set to NaN. *)
Definition nanOvershoot : SecondHandPhysics float :=
  {| creepDurationMs := 150%float;
     creepAngleDegrees := 2%float;
     overshootDegrees := PrimFloat.nan;
     recoilDegrees := (-1.5)%float;
     motionBlurStrength := 12%float |}.

(** The default configuration with [creepDurationMs] set to zero. *)
Definition zeroDuration : SecondHandPhysics float :=
  {| creepDurationMs := 0%float;
     creepAngleDegrees := 2%float;
     overshootDegrees := 2%float;
     recoilDegrees := (-1.5)%float;
     motionBlurStrength := 12%float |}.

(** The creeping hand the witnesses of C7 start from: second 10, base
    angle 60, crept to 61. *)
Definition creepingAtTen : SecondHand float :=
  {| lastSystemSecond := 10;
     secondHandAnimationPhase := CREEPING;
     targetSecondBaseAngle := 60%float;
     currentSecondHandVisualAngle := 61%float;
     blurSecondHandEffect := 0 |}.

(** A running clock whose last processed frame was at 1000 ms. *)
Definition runningClock : Clock float :=
  {| config := defaultConfig;
     isRunning := true;
     animationFrameId := Some 7;
     lastTimestamp := 1000%float;
     hand := run defaultConfig (startHand 15000) [15000] |}.

(** A window with no request pending and nothing drawn. *)
Definition someHost : Host float :=
  {| nextHandle := 8; pending := []; drawn := [] |}.

(** ** Checks that are settled by evaluation *)

(** [x] is a finite double with a positive sign and a non-zero mantissa. *)
Definition positive_finite (x : float) : bool :=
  match Prim2SF x with
  | S754_finite false _ _ => true
  | _ => false
  end.

(** The values [1000 - milliseconds] can take: 1 .. 1000. *)
Definition countdown : list Z := map Z.of_nat (seq 1 1000).

(** The base angle of each of the sixty seconds stays finite when the
    default overshoot or recoil is added to it. *)
Definition finiteAround (sec : Z) : bool :=
  PrimFloat.is_finite (secondBaseAngle sec)
  && PrimFloat.is_finite (secondBaseAngle sec + 2)%float
  && PrimFloat.is_finite (secondBaseAngle sec + -1.5)%float.

(** The hand is in a named phase, on the base angle of some second, and
    shows that angle, or that angle plus the overshoot or the recoil. *)
Definition onASecond (cfg : SecondHandPhysics float) (s : SecondHand float)
  : Prop :=
  secondHandAnimationPhase s <> OTHER
  /\ (exists sec, 0 <= sec < 60 /\ targetSecondBaseAngle s = secondBaseAngle sec)
  /\ (currentSecondHandVisualAngle s = targetSecondBaseAngle s
      \/ currentSecondHandVisualAngle s
         = (targetSecondBaseAngle s + overshootDegrees cfg)%float
      \/ currentSecondHandVisualAngle s
         = (targetSecondBaseAngle s + recoilDegrees cfg)%float).

(** A hand on base angle [t] showing [v]. *)
Definition showing (t v : float) : SecondHand float :=
  {| lastSystemSecond := 0;
     secondHandAnimationPhase := SETTLED;
     targetSecondBaseAngle := t;
     currentSecondHandVisualAngle := v;
     blurSecondHandEffect := 0 |}.

(** Every angle the machine can show on the base angle of second [k]. *)
Definition checkSecond (k : Z) : bool :=
  let t := secondBaseAngle k in
  excursionBounded defaultConfig (showing t t)
  && excursionBounded defaultConfig (showing t (t + 2)%float)
  && excursionBounded defaultConfig (showing t (t + -1.5)%float)
  && forallb
       (fun ms => excursionBounded defaultConfig
                    (creptHand defaultConfig (showing t t) ms))
       (upto 1000).

(** The hand is in a named phase, on the base angle of some second. *)
Definition onBase (s : SecondHand float) : Prop :=
  secondHandAnimationPhase s <> OTHER
  /\ exists k, 0 <= k < 60 /\ targetSecondBaseAngle s = secondBaseAngle k.

(** ** The host's side of the frame loop *)

(** What can happen to a clock between page load and unload: the page
    calls [start()] or [stop()], or the window runs the animation frame
    callback registered under a handle.  The window forgets a handle
    before it runs its callback, and runs nothing for a handle that is
    no longer pending (it was cancelled, or it already ran). *)
Inductive Event (num : Type) : Type :=
  | CallStart (now : Date.t)
  | CallStop
  | FrameDue (id : Z) (timestamp : num) (now : Date.t).
Arguments CallStart {num} now.
Arguments CallStop {num}.
Arguments FrameDue {num} id timestamp now.

Definition isPending {num} (id : Z) (h : Host num) : bool :=
  existsb (fun i => (i =? id)%Z) (pending h).

Definition handle {num} `{JsNumber num} (e : Event num)
    (ch : Clock num * Host num) : Clock num * Host num :=
  match e with
  | CallStart now => start now (fst ch) (snd ch)
  | CallStop => stop (fst ch) (snd ch)
  | FrameDue id timestamp now =>
      if isPending id (snd ch)
      then _animationLoop timestamp now (fst ch)
             (cancelAnimationFrame id (snd ch))
      else ch
  end.

(** The clock and the window after the events [es], oldest first. *)
Definition handleAll {num} `{JsNumber num} (es : list (Event num))
    (ch : Clock num * Host num) : Clock num * Host num :=
  fold_left (fun ch e => handle e ch) es ch.

(** A window in which no request is pending and handles are positive,
    as the handles of [requestAnimationFrame] are. *)
Definition freshWindow {num} (h : Host num) : Prop :=
  pending h = [] /\ 0 < nextHandle h.

(** While the clock runs exactly one request is pending, the one whose
    handle the clock holds; while it is stopped none is, and the clock
    holds no handle. *)
Definition oneRequest {num} (ch : Clock num * Host num) : Prop :=
  0 < nextHandle (snd ch)
  /\ if isRunning (fst ch)
     then exists id, 0 < id /\ animationFrameId (fst ch) = Some id
                     /\ pending (snd ch) = [id]
     else animationFrameId (fst ch) = None /\ pending (snd ch) = [].

(** Is this event the window running a frame callback? *)
Definition isFrameDue {num} (e : Event num) : bool :=
  match e with FrameDue _ _ _ => true | _ => false end.

(** ** Configuration objects and [_deepMerge] *)

Set Warnings "-register-all".

(** The values a configuration is made of.  An object is the list of
    its own enumerable properties in the order [Object.keys] lists
    them, which for names that are not array indices is the order of
    insertion; a list that represents an object names each property
    once. *)
Inductive JsValue : Type :=
  | JUndefined
  | JNull
  | JBoolean (b : bool)
  | JNumber (x : float)
  | JString (s : string)
  | JArray (elements : list JsValue)
  | JObject (properties : list (string * JsValue)).

(** [_isObject(item)] (lines 111-113):
    [item && typeof item === "object" && !Array.isArray(item)], read as
    the condition it is used as.  [null] is falsy, an array is excluded
    by [Array.isArray], and every other non-object has another
    [typeof]. *)
Definition _isObject (item : JsValue) : bool :=
  match item with
  | JObject _ => true
  | _ => false
  end.

(** The own properties of an object; a value that is no object has
    none here. *)
Definition propertiesOf (v : JsValue) : list (string * JsValue) :=
  match v with
  | JObject ps => ps
  | _ => []
  end.

(** [object[key]] for an own property: the first entry named [key]. *)
Fixpoint getOwn (key : string) (ps : list (string * JsValue))
  : option JsValue :=
  match ps with
  | [] => None
  | (k, v) :: rest => if String.eqb k key then Some v else getOwn key rest
  end.

(** [key in object], for names that are not inherited. *)
Definition hasOwn (key : string) (ps : list (string * JsValue)) : bool :=
  match getOwn key ps with
  | Some _ => true
  | None => false
  end.

(** [object[key]]; a missing property reads as [undefined]. *)
Definition getProperty (key : string) (ps : list (string * JsValue))
  : JsValue :=
  match getOwn key ps with
  | Some v => v
  | None => JUndefined
  end.

(** [output[key] = value], which is also what
    [Object.assign(output, { [key]: value })] does: an existing property
    keeps its place and takes the value, a new one is added last (a new
    name that is an array index is listed before the other names by
    JavaScript; the properties are read by name below, not by place). *)
Fixpoint setOwn (key : string) (value : JsValue)
    (ps : list (string * JsValue)) : list (string * JsValue) :=
  match ps with
  | [] => [(key, value)]
  | (k, v) :: rest =>
      if String.eqb k key then (k, value) :: rest
      else (k, v) :: setOwn key value rest
  end.

(** The property name of the array index [i]. *)
Definition indexName (i : nat) : string :=
  NilZero.string_of_uint (Nat.to_uint i).

Fixpoint indexed {A : Type} (i : nat) (l : list A) : list (string * A) :=
  match l with
  | [] => []
  | x :: rest => (indexName i, x) :: indexed (S i) rest
  end.

Fixpoint characters (s : string) : list JsValue :=
  match s with
  | EmptyString => []
  | String c rest => JString (String c EmptyString) :: characters rest
  end.

(** [{ ...value }]: the own enumerable properties of an object, the
    elements of an array and the characters of a string under their
    indices, and nothing for the other values. *)
Definition spread (value : JsValue) : list (string * JsValue) :=
  match value with
  | JObject ps => ps
  | JArray elements => indexed 0 elements
  | JString s => indexed 0 (characters s)
  | _ => []
  end.

(** The body of [Object.keys(source).forEach((key) => ...)] of
    [_deepMerge] (lines 96-106), run over the properties of [source];
    [deepMerge] is the method itself, for the recursive call. *)
Definition mergeProperties (deepMerge : JsValue -> JsValue -> JsValue)
    (target : list (string * JsValue))
  : list (string * JsValue) -> list (string * JsValue)
    -> list (string * JsValue) :=
  fix forEach (source output : list (string * JsValue)) :=
    match source with
    | [] => output
    | (key, value) :: rest =>
        forEach rest
          (if _isObject value then
             if negb (hasOwn key target) then setOwn key value output
             else setOwn key (deepMerge (getProperty key target) value) output
           else setOwn key value output)
    end.

(** [_deepMerge(target, source)] (lines 93-109). *)
Fixpoint _deepMerge (target source : JsValue) {struct source} : JsValue :=
  JObject
    match target, source with
    | JObject tps, JObject sps =>
        mergeProperties _deepMerge tps sps (spread target)
    | _, _ => spread target
    end.

(** The members every object inherits from [Object.prototype].  For
    these names [key in target] holds although the object has no such
    property of its own, so a list of own properties does not tell how
    [_deepMerge] treats them. *)
Definition objectPrototypeNames : list string :=
  ["constructor"; "hasOwnProperty"; "isPrototypeOf";
   "propertyIsEnumerable"; "toLocaleString"; "toString"; "valueOf";
   "__proto__"; "__defineGetter__"; "__defineSetter__";
   "__lookupGetter__"; "__lookupSetter__"]%string.

Definition isIn (name : string) (names : list string) : bool :=
  existsb (String.eqb name) names.

Fixpoint distinct (names : list string) : bool :=
  match names with
  | [] => true
  | name :: rest => negb (isIn name rest) && distinct rest
  end.

(** The list represents the own properties of an object that
    [_deepMerge] can be given as [source]: no name twice, and no name
    that [Object.prototype] also has. *)
Definition ownNames (ps : list (string * JsValue)) : bool :=
  distinct (map fst ps)
  && forallb (fun name => negb (isIn name objectPrototypeNames)) (map fst ps).

(** [AnalogueClock.defaultConfig] (lines 9-55). *)
Definition defaultConfigObject : JsValue :=
  JObject
    [("dialColor", JString "#FFFFFF");
     ("borderColor", JString "#000000");
     ("borderWidth", JNumber 5);
     ("showNumerals", JBoolean true);
     ("numeralFont", JString "Arial");
     ("numeralColor", JString "#000000");
     ("majorTickColor", JString "#000000");
     ("majorTickLength", JNumber 10);
     ("majorTickWidth", JNumber 3);
     ("showMinorTicks", JBoolean true);
     ("minorTickColor", JString "#333333");
     ("minorTickLength", JNumber 5);
     ("minorTickWidth", JNumber 1);
     ("centerPinColor", JString "#000000");
     ("centerPinRadius", JNumber 5);
     ("handShadowOffsetX", JNumber 2);
     ("handShadowOffsetY", JNumber 2);
     ("handShadowBlur", JNumber 3);
     ("handShadowColor", JString "rgba(0, 0, 0, 0.3)");
     ("hourHandColor", JString "#000000");
     ("hourHandLength", JNumber 0.5);
     ("hourHandWidth", JNumber 7);
     ("minuteHandColor", JString "#000000");
     ("minuteHandLength", JNumber 0.75);
     ("minuteHandWidth", JNumber 5);
     ("secondHandColor", JString "#FF0000");
     ("secondHandLength", JNumber 0.9);
     ("secondHandWidth", JNumber 2);
     ("secondHandCounterWeightLength", JNumber 0.15);
     ("secondHandPhysics",
      JObject
        [("creepDurationMs", JNumber 150);
         ("creepAngleDegrees", JNumber 2);
         ("overshootDegrees", JNumber 2);
         ("recoilDegrees", JNumber (-1.5));
         ("motionBlurStrength", JNumber 12)])]%string.

(** [this.config = this._deepMerge(AnalogueClock.defaultConfig,
    userConfig)] (line 71). *)
Definition mergedConfig (userConfig : JsValue) : JsValue :=
  _deepMerge defaultConfigObject userConfig.

(** The number a physics property holds, if it holds one. *)
Definition numberAt (key : string) (ps : list (string * JsValue))
  : option float :=
  match getOwn key ps with
  | Some (JNumber x) => Some x
  | _ => None
  end.

(** [config.secondHandPhysics] as the state machine reads it, when it is
    an object whose five properties are numbers. *)
Definition secondHandPhysicsOf (config : JsValue)
  : option (SecondHandPhysics float) :=
  match getOwn "secondHandPhysics" (propertiesOf config) with
  | Some (JObject ps) =>
      match numberAt "creepDurationMs" ps, numberAt "creepAngleDegrees" ps,
            numberAt "overshootDegrees" ps, numberAt "recoilDegrees" ps,
            numberAt "motionBlurStrength" ps with
      | Some d, Some a, Some o, Some r, Some m =>
          Some {| creepDurationMs := d; creepAngleDegrees := a;
                  overshootDegrees := o; recoilDegrees := r;
                  motionBlurStrength := m |}
      | _, _, _, _, _ => None
      end
  | _ => None
  end.

(** The value a user gives a physics property, or else the default. *)
Definition overriding (key : string) (user : list (string * JsValue))
    (default : float) : float :=
  match numberAt key user with
  | Some x => x
  | None => default
  end.

(** A user's [secondHandPhysics] that sets each of the five properties
    to a number or leaves it out. *)
Definition numbersOrAbsent (user : list (string * JsValue)) : bool :=
  forallb
    (fun key => match getOwn key user with
                | None | Some (JNumber _) => true
                | Some _ => false
                end)
    ["creepDurationMs"; "creepAngleDegrees"; "overshootDegrees";
     "recoilDegrees"; "motionBlurStrength"]%string.

(** A user configuration that overrides the border colour and two of
    the physics properties. *)
Definition someUserConfig : JsValue :=
  JObject
    [("borderColor", JString "#4682B4");
     ("secondHandPhysics",
      JObject [("creepDurationMs", JNumber 300);
               ("recoilDegrees", JNumber (-1))])]%string.

(** ** The colour of the motion blur ([_drawHands], lines 411-433) *)

(** [[0-9]], which is also [\d]. *)
Definition isDigit (c : ascii) : bool :=
  (48 <=? nat_of_ascii c)%nat && (nat_of_ascii c <=? 57)%nat.

(** [[A-Fa-f0-9]]. *)
Definition isHexDigit (c : ascii) : bool :=
  isDigit c
  || ((65 <=? nat_of_ascii c)%nat && (nat_of_ascii c <=? 70)%nat)
  || ((97 <=? nat_of_ascii c)%nat && (nat_of_ascii c <=? 102)%nat).

Definition digitValue (c : ascii) : Z := Z.of_nat (nat_of_ascii c) - 48.

Definition hexDigitValue (c : ascii) : Z :=
  if isDigit c then Z.of_nat (nat_of_ascii c) - 48
  else if (nat_of_ascii c <=? 70)%nat then Z.of_nat (nat_of_ascii c) - 55
  else Z.of_nat (nat_of_ascii c) - 87.

Fixpoint allHexDigits (s : string) : bool :=
  match s with
  | EmptyString => true
  | String c rest => isHexDigit c && allHexDigits rest
  end.

(** [/^#([A-Fa-f0-9]{3}){1,2}$/.test(handColor)]: a [#] followed by
    exactly three or exactly six hexadecimal digits. *)
Definition testHexColor (handColor : string) : bool :=
  match handColor with
  | String "#" body =>
      allHexDigits body
      && ((String.length body =? 3)%nat || (String.length body =? 6)%nat)
  | _ => false
  end.

(** The number that ["0x" + digits] converts to. *)
Definition hexLiteralValue (digits : list ascii) : Z :=
  fold_left (fun v c => 16 * v + hexDigitValue c) digits 0.

(** Lines 417-422: the channels of a colour that passed
    [testHexColor]. *)
Definition hexChannels (handColor : string) : Z * Z * Z :=
  let c := list_ascii_of_string (String.substring 1 (String.length handColor - 1) handColor) in
  let c := match c with
           | [c0; c1; c2] => [c0; c0; c1; c1; c2; c2]
           | _ => c
           end in
  let c := hexLiteralValue c in
  (Z.land (Z.shiftr c 16) 255, Z.land (Z.shiftr c 8) 255, Z.land c 255).

Fixpoint startsWith (start s : string) : bool :=
  match start with
  | EmptyString => true
  | String a start' =>
      match s with
      | EmptyString => false
      | String b s' => Ascii.eqb a b && startsWith start' s'
      end
  end.

(** [/^rgb/.test(handColor)]. *)
Definition testRgb (handColor : string) : bool :=
  startsWith "rgb" handColor.

Definition startsWithDigit (s : string) : bool :=
  match s with
  | String c _ => isDigit c
  | EmptyString => false
  end.

(** [handColor.match(/\d+/g)]: the maximal runs of digits, in order
    (the empty list where JavaScript returns [null]). *)
Fixpoint digitRuns (s : string) : list string :=
  match s with
  | EmptyString => []
  | String c rest =>
      if isDigit c then
        if startsWithDigit rest then
          match digitRuns rest with
          | run :: runs => String c run :: runs
          | [] => [String c EmptyString]
          end
        else String c EmptyString :: digitRuns rest
      else digitRuns rest
  end.

(** [parseInt(run)] for a run of decimal digits.  The integer is exact
    as a JavaScript number for runs of up to fifteen digits. *)
Definition parseInt (run : string) : Z :=
  fold_left (fun v c => 10 * v + digitValue c) (list_ascii_of_string run) 0.

(** Lines 413-430: the red, green and blue of the motion blur. *)
Definition motionBlurChannels (handColor : string) : Z * Z * Z :=
  if testHexColor handColor then hexChannels handColor
  else if testRgb handColor then
    match digitRuns handColor with
    | p0 :: p1 :: p2 :: _ => (parseInt p0, parseInt p1, parseInt p2)
    | _ => (255, 0, 0)
    end
  else (255, 0, 0).

(** An integer in a template literal. *)
Definition integerToString (n : Z) : string :=
  NilZero.string_of_int (Z.to_int n).

(** Line 432: [`rgba(${r},${g},${b},0.35)`]. *)
Definition motionBlurColor (handColor : string) : string :=
  let '(r, g, b) := motionBlurChannels handColor in
  ("rgba(" ++ integerToString r ++ "," ++ integerToString g ++ ","
   ++ integerToString b ++ ",0.35)")%string.

(** A string of one to fifteen decimal digits. *)
Definition isDigitRun (s : string) : bool :=
  negb (String.length s =? 0)%nat && (String.length s <=? 15)%nat
  && forallb isDigit (list_ascii_of_string s).

(** A string without any digit. *)
Definition digitFree (s : string) : bool :=
  forallb (fun c => negb (isDigit c)) (list_ascii_of_string s).

(** A non-empty string without any digit: what separates two numbers. *)
Definition isSeparator (s : string) : bool :=
  negb (String.length s =? 0)%nat && digitFree s.

(** ** Drawing: the canvas and the three drawing methods *)

(** What the drawing code needs from JavaScript besides the operations
    of [JsNumber]: unary minus, [Math.cos], [Math.sin], [Math.PI] and
    the conversion of a number to a string in a template literal. *)
Class JsMath (num : Type) : Type := {
  negate          : num -> num;
  Math_cos        : num -> num;
  Math_sin        : num -> num;
  Math_PI         : num;
  Number_toString : num -> string
}.

(** The calls and property assignments on the 2D context, as the source
    makes them. *)
Inductive CanvasOp (num : Type) : Type :=
  | clearRect (x y w h : num)
  | beginPath
  | arc (x y r startAngle endAngle : num)
  | moveTo (x y : num)
  | lineTo (x y : num)
  | fill
  | stroke
  | fillText (text : string) (x y : num)
  | save
  | restore
  | translate (x y : num)
  | rotate (angle : num)
  | set_fillStyle (v : string)
  | set_strokeStyle (v : string)
  | set_lineWidth (v : num)
  | set_lineCap (v : string)
  | set_font (v : string)
  | set_textAlign (v : string)
  | set_textBaseline (v : string)
  | set_shadowOffsetX (v : num)
  | set_shadowOffsetY (v : num)
  | set_shadowBlur (v : num)
  | set_shadowColor (v : string).
Arguments clearRect {num} x y w h.
Arguments beginPath {num}.
Arguments arc {num} x y r startAngle endAngle.
Arguments moveTo {num} x y.
Arguments lineTo {num} x y.
Arguments fill {num}.
Arguments stroke {num}.
Arguments fillText {num} text x y.
Arguments save {num}.
Arguments restore {num}.
Arguments translate {num} x y.
Arguments rotate {num} angle.
Arguments set_fillStyle {num} v.
Arguments set_strokeStyle {num} v.
Arguments set_lineWidth {num} v.
Arguments set_lineCap {num} v.
Arguments set_font {num} v.
Arguments set_textAlign {num} v.
Arguments set_textBaseline {num} v.
Arguments set_shadowOffsetX {num} v.
Arguments set_shadowOffsetY {num} v.
Arguments set_shadowBlur {num} v.
Arguments set_shadowColor {num} v.

(** [this.config], with the properties of [defaultConfig]. *)
Record ClockConfig (num : Type) : Type := {
  dialColor : string;
  borderColor : string;
  borderWidth : num;
  showNumerals : bool;
  numeralFont : string;
  numeralColor : string;
  majorTickColor : string;
  majorTickLength : num;
  majorTickWidth : num;
  showMinorTicks : bool;
  minorTickColor : string;
  minorTickLength : num;
  minorTickWidth : num;
  centerPinColor : string;
  centerPinRadius : num;
  handShadowOffsetX : num;
  handShadowOffsetY : num;
  handShadowBlur : num;
  handShadowColor : string;
  hourHandColor : string;
  hourHandLength : num;
  hourHandWidth : num;
  minuteHandColor : string;
  minuteHandLength : num;
  minuteHandWidth : num;
  secondHandColor : string;
  secondHandLength : num;
  secondHandWidth : num;
  secondHandCounterWeightLength : num;
  physics : SecondHandPhysics num   (* [secondHandPhysics] *)
}.
Arguments dialColor {num} _.
Arguments borderColor {num} _.
Arguments borderWidth {num} _.
Arguments showNumerals {num} _.
Arguments numeralFont {num} _.
Arguments numeralColor {num} _.
Arguments majorTickColor {num} _.
Arguments majorTickLength {num} _.
Arguments majorTickWidth {num} _.
Arguments showMinorTicks {num} _.
Arguments minorTickColor {num} _.
Arguments minorTickLength {num} _.
Arguments minorTickWidth {num} _.
Arguments centerPinColor {num} _.
Arguments centerPinRadius {num} _.
Arguments handShadowOffsetX {num} _.
Arguments handShadowOffsetY {num} _.
Arguments handShadowBlur {num} _.
Arguments handShadowColor {num} _.
Arguments hourHandColor {num} _.
Arguments hourHandLength {num} _.
Arguments hourHandWidth {num} _.
Arguments minuteHandColor {num} _.
Arguments minuteHandLength {num} _.
Arguments minuteHandWidth {num} _.
Arguments secondHandColor {num} _.
Arguments secondHandLength {num} _.
Arguments secondHandWidth {num} _.
Arguments secondHandCounterWeightLength {num} _.
Arguments physics {num} _.

(** What [_initDimensions] stores on the clock. *)
Record Dimensions (num : Type) : Type := {
  width : num;
  height : num;
  centerX : num;
  centerY : num;
  radius : num;
  numeralRadius : num
}.
Arguments width {num} _.
Arguments height {num} _.
Arguments centerX {num} _.
Arguments centerY {num} _.
Arguments radius {num} _.
Arguments numeralRadius {num} _.

(** The shadow configuration [_drawHand] receives. *)
Record Shadow (num : Type) : Type := {
  offsetX : num;
  offsetY : num;
  shadowBlur : num;
  shadowColor : string
}.
Arguments offsetX {num} _.
Arguments offsetY {num} _.
Arguments shadowBlur {num} _.
Arguments shadowColor {num} _.

Section Drawing.

Context {num : Type} `{JsNumber num} `{JsMath num}.
Local Open Scope js_scope.

(** The decimal literal [n / d], for [d] a power of ten: the number
    closest to the quotient, which is what the division computes. *)
Definition decimal (n d : Z) : num := of_Z n / of_Z d.

(** [_initDimensions()] (lines 118-129), for a canvas of the given
    width and height. *)
Definition _initDimensions (cfg : ClockConfig num)
    (canvasWidth canvasHeight : num) : Dimensions num :=
  let baseRadius := Math_min canvasWidth canvasHeight / of_Z 2 in
  let radius :=
    baseRadius - Math_max (borderWidth cfg) (baseRadius * decimal 15 100) in
  {| width := canvasWidth;
     height := canvasHeight;
     centerX := canvasWidth / of_Z 2;
     centerY := canvasHeight / of_Z 2;
     radius := radius;
     numeralRadius := radius * decimal 85 100 |}.

(** [_degreesToRadians(degrees)] (lines 170-172). *)
Definition _degreesToRadians (degrees : num) : num :=
  degrees * (Math_PI / of_Z 180).

(** [_clearCanvas()] (lines 288-290). *)
Definition _clearCanvas (dims : Dimensions num) : list (CanvasOp num) :=
  [clearRect (of_Z 0) (of_Z 0) (width dims) (height dims)].

(** One round of the numeral loop (lines 320-323). *)
Definition drawNumeral (dims : Dimensions num) (i : Z)
  : list (CanvasOp num) :=
  let angle := _degreesToRadians (of_Z (i * 30 - 90)) in
  let x := centerX dims + numeralRadius dims * Math_cos angle in
  let y := centerY dims + numeralRadius dims * Math_sin angle in
  [fillText (integerToString i) x y].

(** One round of the tick mark loop (lines 329-359). *)
Definition drawTick (cfg : ClockConfig num) (dims : Dimensions num) (i : Z)
  : list (CanvasOp num) :=
  [save;
   translate (centerX dims) (centerY dims);
   rotate (_degreesToRadians (of_Z (i * 6)))]
  ++ (if (Z.rem i 5 =? 0)%Z then
        if showNumerals cfg || (majorTickLength cfg >? of_Z 0) then
          [beginPath;
           moveTo (of_Z 0)
             (negate (radius dims) + majorTickLength cfg
              + borderWidth cfg / of_Z 2);
           lineTo (of_Z 0) (negate (radius dims) + borderWidth cfg / of_Z 2);
           set_lineWidth (majorTickWidth cfg);
           set_strokeStyle (majorTickColor cfg);
           stroke]
        else []
      else if showMinorTicks cfg then
        [beginPath;
         moveTo (of_Z 0)
           (negate (radius dims) + minorTickLength cfg
            + borderWidth cfg / of_Z 2);
         lineTo (of_Z 0) (negate (radius dims) + borderWidth cfg / of_Z 2);
         set_lineWidth (minorTickWidth cfg);
         set_strokeStyle (minorTickColor cfg);
         stroke]
      else [])
  ++ [restore].

(** [_drawClockFace()] (lines 295-371). *)
Definition _drawClockFace (cfg : ClockConfig num) (dims : Dimensions num)
  : list (CanvasOp num) :=
  [beginPath;
   arc (centerX dims) (centerY dims) (radius dims) (of_Z 0)
     (of_Z 2 * Math_PI);
   set_fillStyle (dialColor cfg);
   fill]
  ++ (if borderWidth cfg >? of_Z 0 then
        [set_lineWidth (borderWidth cfg);
         set_strokeStyle (borderColor cfg);
         stroke]
      else [])
  ++ (if showNumerals cfg then
        [set_font
           (Number_toString (radius dims * decimal 12 100)
            ++ "px " ++ numeralFont cfg)%string;
         set_fillStyle (numeralColor cfg);
         set_textAlign "center";
         set_textBaseline "middle"]
        ++ flat_map (drawNumeral dims) (map Z.of_nat (seq 1 12))
      else [])
  ++ flat_map (drawTick cfg dims) (map Z.of_nat (seq 0 60))
  ++ [beginPath;
      arc (centerX dims) (centerY dims) (centerPinRadius cfg) (of_Z 0)
        (of_Z 2 * Math_PI);
      set_fillStyle (centerPinColor cfg);
      fill;
      set_strokeStyle "rgba(255,255,255,0.5)";
      set_lineWidth (of_Z 1);
      stroke].

(** [_drawHand(angleDegrees, length, width, color, shadowConfig,
    isSecondHand, counterWeightLength)] (lines 471-521). *)
Definition _drawHand (cfg : ClockConfig num) (dims : Dimensions num)
    (angleDegrees length width : num) (color : string)
    (shadowConfig : Shadow num) (isSecondHand : bool)
    (counterWeightLength : num) : list (CanvasOp num) :=
  let angleRadians := _degreesToRadians (angleDegrees - of_Z 90) in
  [save;
   translate (centerX dims) (centerY dims);
   rotate angleRadians;
   set_shadowOffsetX (offsetX shadowConfig);
   set_shadowOffsetY (offsetY shadowConfig);
   set_shadowBlur (shadowBlur shadowConfig);
   set_shadowColor (shadowColor shadowConfig);
   beginPath;
   set_lineWidth width;
   set_strokeStyle color;
   set_lineCap "round";
   (if isSecondHand && (counterWeightLength >? of_Z 0)
    then moveTo (negate counterWeightLength) (of_Z 0)
    else moveTo (of_Z 0) (of_Z 0));
   lineTo length (of_Z 0);
   stroke]
  ++ (if isSecondHand && (counterWeightLength >? of_Z 0)
         && (centerPinRadius cfg >? of_Z 0)
      then [beginPath;
            arc (of_Z 0) (of_Z 0) (width * decimal 12 10) (of_Z 0)
              (of_Z 2 * Math_PI);
            set_fillStyle color;
            fill]
      else [])
  ++ [restore].

(** The shadow of the second hand (lines 409-448). *)
Definition secondHandShadow (cfg : ClockConfig num)
    (blurSecondHandEffect : Z) : Shadow num :=
  let stdShadow :=
    {| offsetX := handShadowOffsetX cfg;
       offsetY := handShadowOffsetY cfg;
       shadowBlur := handShadowBlur cfg;
       shadowColor := handShadowColor cfg |} in
  if negb (blurSecondHandEffect =? 0)%Z then
    {| offsetX := offsetX stdShadow;
       offsetY := offsetY stdShadow;
       shadowBlur := motionBlurStrength (physics cfg);
       shadowColor := motionBlurColor (secondHandColor cfg) |}
  else stdShadow.

(** [_drawHands(hourAngle, minuteAngle, secondAngle)] (lines 379-459);
    [blurSecondHandEffect] is the field of the clock it reads. *)
Definition _drawHands (cfg : ClockConfig num) (dims : Dimensions num)
    (hourAngle minuteAngle secondAngle : num) (blurSecondHandEffect : Z)
  : list (CanvasOp num) :=
  let stdShadow :=
    {| offsetX := handShadowOffsetX cfg;
       offsetY := handShadowOffsetY cfg;
       shadowBlur := handShadowBlur cfg;
       shadowColor := handShadowColor cfg |} in
  _drawHand cfg dims hourAngle (hourHandLength cfg * radius dims)
    (hourHandWidth cfg) (hourHandColor cfg) stdShadow false (of_Z 0)
  ++ _drawHand cfg dims minuteAngle (minuteHandLength cfg * radius dims)
       (minuteHandWidth cfg) (minuteHandColor cfg) stdShadow false (of_Z 0)
  ++ _drawHand cfg dims secondAngle (secondHandLength cfg * radius dims)
       (secondHandWidth cfg) (secondHandColor cfg)
       (secondHandShadow cfg blurSecondHandEffect) true
       (secondHandCounterWeightLength cfg * radius dims).

(** "RENDERING" (lines 275-278): what one processed frame sends to the
    canvas. *)
Definition drawFrame (cfg : ClockConfig num) (dims : Dimensions num)
    (f : Frame num) : list (CanvasOp num) :=
  _clearCanvas dims
  ++ _drawClockFace cfg dims
  ++ _drawHands cfg dims (hourAngle f) (minuteAngle f) (secondAngle f)
       (blur f).

End Drawing.

(** The depth of [save()] nesting after [ops], starting at [depth];
    [None] if a [restore()] has no [save()] to undo, or if the transform
    or the shadow is changed outside every [save()]. *)
Fixpoint scoped {num} (depth : nat) (ops : list (CanvasOp num))
  : option nat :=
  match ops with
  | [] => Some depth
  | op :: rest =>
      match op with
      | save => scoped (S depth) rest
      | restore =>
          match depth with
          | O => None
          | S d => scoped d rest
          end
      | translate _ _ | rotate _
      | set_shadowOffsetX _ | set_shadowOffsetY _
      | set_shadowBlur _ | set_shadowColor _ =>
          match depth with
          | O => None
          | S _ => scoped depth rest
          end
      | _ => scoped depth rest
      end
  end.

(** The lines drawn: each [moveTo] with the [lineTo] that follows it. *)
Fixpoint linesDrawn {num} (ops : list (CanvasOp num)) : nat :=
  match ops with
  | moveTo _ _ :: rest => S (linesDrawn rest)
  | _ :: rest => linesDrawn rest
  | [] => 0
  end.

(** The rotations applied, in order. *)
Fixpoint rotations {num} (ops : list (CanvasOp num)) : list num :=
  match ops with
  | rotate a :: rest => a :: rotations rest
  | _ :: rest => rotations rest
  | [] => []
  end.

(** The texts written, in order. *)
Fixpoint textsWritten {num} (ops : list (CanvasOp num)) : list string :=
  match ops with
  | fillText text _ _ :: rest => text :: textsWritten rest
  | _ :: rest => textsWritten rest
  | [] => []
  end.

(** The shadow colours and shadow blurs set, in order. *)
Fixpoint shadowColorsSet {num} (ops : list (CanvasOp num)) : list string :=
  match ops with
  | set_shadowColor v :: rest => v :: shadowColorsSet rest
  | _ :: rest => shadowColorsSet rest
  | [] => []
  end.

Fixpoint shadowBlursSet {num} (ops : list (CanvasOp num)) : list num :=
  match ops with
  | set_shadowBlur v :: rest => v :: shadowBlursSet rest
  | _ :: rest => shadowBlursSet rest
  | [] => []
  end.

(** The milliseconds of the default creep window: 850 .. 999. *)
Definition creepWindow : list Z := map (fun i => 850 + Z.of_nat i) (seq 0 150).

(** On the base angle of second [k], with the default configuration:
    the angles the creep formula gives for the milliseconds of the
    window are in order. *)
Definition creepOrdered (k : Z) : bool :=
  let t := secondBaseAngle k in
  let shown :=
    map (fun ms =>
           (ms, currentSecondHandVisualAngle
                  (creptHand defaultConfig (showing t t) ms)))
      creepWindow in
  forallb
    (fun a => forallb
                (fun b => (fst b <? fst a) || PrimFloat.leb (snd a) (snd b))
                shown)
    shown.

(** ** Facts about [Date] *)

Lemma getSeconds_range (d : Date.t) : (0 <= Date.getSeconds d < 60)%Z.
Proof. unfold Date.getSeconds. apply Z.mod_pos_bound. lia. Qed.

Lemma getMinutes_range (d : Date.t) : (0 <= Date.getMinutes d < 60)%Z.
Proof. unfold Date.getMinutes. apply Z.mod_pos_bound. lia. Qed.

Lemma getHours_range (d : Date.t) : (0 <= Date.getHours d < 24)%Z.
Proof. unfold Date.getHours. apply Z.mod_pos_bound. lia. Qed.

Lemma getMilliseconds_range (d : Date.t) : (0 <= Date.getMilliseconds d < 1000)%Z.
Proof. unfold Date.getMilliseconds. apply Z.mod_pos_bound. lia. Qed.

(** Two instants between one and fifty-nine seconds apart show different
    seconds. *)
Lemma getSeconds_differ (t1 t2 : Date.t) :
  (1000 <= t2 - t1 <= 59000)%Z -> Date.getSeconds t2 <> Date.getSeconds t1.
Proof.
  unfold Date.getSeconds. intros Hgap Heq.
  pose proof (Z.div_mod t1 1000 ltac:(lia)) as E1.
  pose proof (Z.div_mod t2 1000 ltac:(lia)) as E2.
  pose proof (Z.mod_pos_bound t1 1000 ltac:(lia)) as B1.
  pose proof (Z.mod_pos_bound t2 1000 ltac:(lia)) as B2.
  set (q1 := (t1 / 1000)%Z) in *. set (q2 := (t2 / 1000)%Z) in *.
  assert (Hq : (1 <= q2 - q1 <= 59)%Z) by lia.
  pose proof (Z.div_mod q1 60 ltac:(lia)) as D1.
  pose proof (Z.div_mod q2 60 ltac:(lia)) as D2.
  pose proof (Z.mod_pos_bound q1 60 ltac:(lia)) as C1.
  pose proof (Z.mod_pos_bound q2 60 ltac:(lia)) as C2.
  rewrite Heq in D2. lia.
Qed.

(** ** Facts about binary64 *)

Module Binary64Facts.

Lemma SFcompare_antisym (a b : spec_float) :
  SFcompare b a = option_map CompOpp (SFcompare a b).
Proof.
  destruct a as [sa|sa| |sa ma ea], b as [sb|sb| |sb mb eb];
    try reflexivity;
    try (destruct sa; reflexivity);
    try (destruct sb; reflexivity);
    try (destruct sa, sb; reflexivity).
  cbn [SFcompare option_map].
  rewrite (Z.compare_antisym ea eb).
  pose proof (Pos.compare_cont_antisym ma mb Eq) as Hm.
  cbn [CompOpp] in Hm.
  destruct sa, sb; try reflexivity;
    destruct (ea ?= eb)%Z; cbn [CompOpp]; try reflexivity;
    rewrite <- Hm; try reflexivity.
Qed.

Lemma float_leb_not_gt (x y : float) :
  PrimFloat.leb x y = true -> PrimFloat.ltb y x = false.
Proof.
  rewrite FloatAxioms.leb_spec, FloatAxioms.ltb_spec. unfold SFleb, SFltb.
  rewrite (SFcompare_antisym (Prim2SF x) (Prim2SF y)).
  destruct (SFcompare (Prim2SF x) (Prim2SF y)) as [[ | | ]|];
    cbn; congruence.
Qed.

Lemma countdown_spec (m : Z) : (1 <= m <= 1000)%Z -> In m countdown.
Proof.
  intros Hm. unfold countdown. apply in_map_iff.
  exists (Z.to_nat m). split; [lia|]. apply in_seq. lia.
Qed.

Lemma countdown_positive_finite :
  forallb (fun m => positive_finite (Binary64.of_Z m)) countdown = true.
Proof. vm_compute. reflexivity. Qed.

Lemma of_Z_positive_finite (m : Z) :
  (1 <= m <= 1000)%Z -> positive_finite (Binary64.of_Z m) = true.
Proof.
  intros Hm. pose proof countdown_positive_finite as Hall.
  rewrite forallb_forall in Hall. apply Hall, countdown_spec, Hm.
Qed.

(** A number that is [<= 0] lies strictly below the doubles of 1..1000. *)
Lemma nonpositive_below (d : float) (m : Z) :
  PrimFloat.leb d 0 = true -> (1 <= m <= 1000)%Z ->
  PrimFloat.leb (Binary64.of_Z m) d = false
  /\ PrimFloat.ltb d (Binary64.of_Z m) = true.
Proof.
  intros Hd Hm. apply of_Z_positive_finite in Hm.
  unfold positive_finite in Hm.
  rewrite FloatAxioms.leb_spec in Hd.
  rewrite FloatAxioms.leb_spec, FloatAxioms.ltb_spec.
  change (Prim2SF 0) with (S754_zero false) in Hd.
  unfold SFleb, SFltb in *.
  destruct (Prim2SF (Binary64.of_Z m)) as [ | | |[|] mm em];
    try discriminate.
  destruct (Prim2SF d) as [sd|[|]| |[|] md ed]; cbn in *;
    try discriminate; split; reflexivity.
Qed.

End Binary64Facts.

#[export] Instance float_JsOrder : @JsOrder float float_JsNumber :=
  @Build_JsOrder float float_JsNumber Binary64Facts.float_leb_not_gt.

Lemma Q_leb_not_gt (x y : Q) : Qle_bool x y = true -> Exact.ltb y x = false.
Proof. unfold Exact.ltb. now intros ->. Qed.

#[export] Instance Q_JsOrder : @JsOrder Q Q_JsNumber :=
  @Build_JsOrder Q Q_JsNumber Q_leb_not_gt.

(** ** The transitions of the state machine *)

Section Transitions.

Context {num : Type} `{JsOrder num}.
Local Open Scope js_scope.

Variable cfg : SecondHandPhysics num.

Lemma newSecondDetected_true (s : SecondHand num) (sec : Z) :
  newSecondDetected s sec = true <-> sec <> lastSystemSecond s.
Proof.
  unfold newSecondDetected. rewrite negb_true_iff. apply Z.eqb_neq.
Qed.

Lemma newSecondDetected_false (s : SecondHand num) (sec : Z) :
  newSecondDetected s sec = false <-> sec = lastSystemSecond s.
Proof.
  unfold newSecondDetected. rewrite negb_false_iff. apply Z.eqb_eq.
Qed.

(** Row "any / tick event detected". *)
Lemma step_tick (s : SecondHand num) (sec ms : Z) :
  sec <> lastSystemSecond s ->
  secondHandPhysics cfg s sec ms =
    {| lastSystemSecond := sec;
       secondHandAnimationPhase := OVERSHOOT;
       targetSecondBaseAngle := secondBaseAngle sec;
       currentSecondHandVisualAngle :=
         secondBaseAngle sec + overshootDegrees cfg;
       blurSecondHandEffect := -1 |}.
Proof.
  intros Hne. unfold secondHandPhysics.
  now rewrite (proj2 (newSecondDetected_true s sec) Hne).
Qed.

(** Row "OVERSHOOT / no tick". *)
Lemma step_overshoot (s : SecondHand num) (sec ms : Z) :
  secondHandAnimationPhase s = OVERSHOOT -> sec = lastSystemSecond s ->
  secondHandPhysics cfg s sec ms =
    {| lastSystemSecond := lastSystemSecond s;
       secondHandAnimationPhase := RECOIL;
       targetSecondBaseAngle := targetSecondBaseAngle s;
       currentSecondHandVisualAngle :=
         targetSecondBaseAngle s + recoilDegrees cfg;
       blurSecondHandEffect := 1 |}.
Proof.
  intros Hp Heq. unfold secondHandPhysics.
  now rewrite (proj2 (newSecondDetected_false s sec) Heq), Hp.
Qed.

(** Row "RECOIL / no tick". *)
Lemma step_recoil (s : SecondHand num) (sec ms : Z) :
  secondHandAnimationPhase s = RECOIL -> sec = lastSystemSecond s ->
  secondHandPhysics cfg s sec ms =
    {| lastSystemSecond := lastSystemSecond s;
       secondHandAnimationPhase := SETTLED;
       targetSecondBaseAngle := targetSecondBaseAngle s;
       currentSecondHandVisualAngle := targetSecondBaseAngle s;
       blurSecondHandEffect := -1 |}.
Proof.
  intros Hp Heq. unfold secondHandPhysics.
  now rewrite (proj2 (newSecondDetected_false s sec) Heq), Hp.
Qed.

Lemma creepingCase_inside (s : SecondHand num) (ms : Z) :
  (0 <= 1000 - ms)%Z ->
  (of_Z (1000 - ms) <=? creepDurationMs cfg) = true ->
  creepingCase cfg s ms = creptHand cfg s ms.
Proof.
  intros Hpos Hle. unfold creepingCase, creptHand.
  rewrite (leb_not_gt _ _ Hle).
  now rewrite (proj2 (Z.ltb_ge _ _) Hpos).
Qed.

Lemma creepingCase_outside (s : SecondHand num) (ms : Z) :
  (1000 - ms < 0)%Z
  \/ (of_Z (1000 - ms) >? creepDurationMs cfg) = true ->
  creepingCase cfg s ms = restingHand s.
Proof.
  intros Hout. unfold creepingCase, restingHand.
  destruct Hout as [Hneg | Hgt].
  - rewrite (proj2 (Z.ltb_lt _ _) Hneg). now rewrite orb_true_r.
  - now rewrite Hgt.
Qed.

(** Row "SETTLED / no tick, 0 < msUntilNextTick <= creepDurationMs". *)
Lemma step_settled_creep (s : SecondHand num) (sec ms : Z) :
  secondHandAnimationPhase s = SETTLED -> sec = lastSystemSecond s ->
  (0 < 1000 - ms)%Z ->
  (of_Z (1000 - ms) <=? creepDurationMs cfg) = true ->
  secondHandPhysics cfg s sec ms = creptHand cfg s ms.
Proof.
  intros Hp Heq Hpos Hle. unfold secondHandPhysics.
  rewrite (proj2 (newSecondDetected_false s sec) Heq), Hp, Hle.
  rewrite (proj2 (Z.ltb_lt _ _) Hpos). cbn [andb].
  apply creepingCase_inside; [lia | exact Hle].
Qed.

(** Row "SETTLED / no tick", outside the creep window. *)
Lemma step_settled_rest (s : SecondHand num) (sec ms : Z) :
  secondHandAnimationPhase s = SETTLED -> sec = lastSystemSecond s ->
  (of_Z (1000 - ms) <=? creepDurationMs cfg) && (0 <? 1000 - ms)%Z = false ->
  secondHandPhysics cfg s sec ms = restingHand s.
Proof.
  intros Hp Heq Hout. unfold secondHandPhysics.
  now rewrite (proj2 (newSecondDetected_false s sec) Heq), Hp, Hout.
Qed.

(** Row "CREEPING / no tick, still within creep window". *)
Lemma step_creeping_inside (s : SecondHand num) (sec ms : Z) :
  secondHandAnimationPhase s = CREEPING -> sec = lastSystemSecond s ->
  (0 <= 1000 - ms)%Z ->
  (of_Z (1000 - ms) <=? creepDurationMs cfg) = true ->
  secondHandPhysics cfg s sec ms = creptHand cfg s ms.
Proof.
  intros Hp Heq Hpos Hle. unfold secondHandPhysics.
  rewrite (proj2 (newSecondDetected_false s sec) Heq), Hp.
  now apply creepingCase_inside.
Qed.

(** Row "CREEPING / no tick, window exceeded or elapsed time invalid". *)
Lemma step_creeping_outside (s : SecondHand num) (sec ms : Z) :
  secondHandAnimationPhase s = CREEPING -> sec = lastSystemSecond s ->
  (1000 - ms < 0)%Z
  \/ (of_Z (1000 - ms) >? creepDurationMs cfg) = true ->
  secondHandPhysics cfg s sec ms = restingHand s.
Proof.
  intros Hp Heq Hout. unfold secondHandPhysics.
  rewrite (proj2 (newSecondDetected_false s sec) Heq), Hp.
  now apply creepingCase_outside.
Qed.

(** The [default:] arm. *)
Lemma step_other (s : SecondHand num) (sec ms : Z) :
  secondHandAnimationPhase s = OTHER -> sec = lastSystemSecond s ->
  secondHandPhysics cfg s sec ms =
    {| lastSystemSecond := lastSystemSecond s;
       secondHandAnimationPhase := SETTLED;
       targetSecondBaseAngle := secondBaseAngle sec;
       currentSecondHandVisualAngle := secondBaseAngle sec;
       blurSecondHandEffect := 0 |}.
Proof.
  intros Hp Heq. unfold secondHandPhysics.
  now rewrite (proj2 (newSecondDetected_false s sec) Heq), Hp.
Qed.

(** [creepingCase] yields one of two hands, whatever the numbers. *)
Lemma creepingCase_cases (s : SecondHand num) (ms : Z) :
  creepingCase cfg s ms = restingHand s
  \/ creepingCase cfg s ms = creptHand cfg s ms.
Proof.
  unfold creepingCase, restingHand, creptHand.
  destruct (_ || _); [left | right]; reflexivity.
Qed.

(** After any step the remembered second is the one just read. *)
Lemma step_lastSystemSecond (s : SecondHand num) (sec ms : Z) :
  lastSystemSecond (secondHandPhysics cfg s sec ms) = sec.
Proof.
  destruct (Z.eq_dec sec (lastSystemSecond s)) as [Heq | Hne].
  - unfold secondHandPhysics.
    rewrite (proj2 (newSecondDetected_false s sec) Heq).
    destruct (secondHandAnimationPhase s); cbn; try now symmetry.
    + destruct (_ && _); [|now symmetry].
      destruct (creepingCase_cases s ms) as [-> | ->]; now symmetry.
    + destruct (creepingCase_cases s ms) as [-> | ->]; now symmetry.
  - now rewrite step_tick.
Qed.

(** No step produces the phase of the [default:] arm. *)
Lemma step_phase_known (s : SecondHand num) (sec ms : Z) :
  secondHandAnimationPhase (secondHandPhysics cfg s sec ms) <> OTHER.
Proof.
  unfold secondHandPhysics.
  destruct (newSecondDetected s sec); [discriminate|].
  destruct (secondHandAnimationPhase s); cbn; try discriminate.
  - destruct (_ && _); [|discriminate].
    destruct (creepingCase_cases s ms) as [-> | ->]; discriminate.
  - destruct (creepingCase_cases s ms) as [-> | ->]; discriminate.
Qed.

(** Without a tick no step enters [OVERSHOOT]. *)
Lemma step_no_tick_not_overshoot (s : SecondHand num) (sec ms : Z) :
  sec = lastSystemSecond s ->
  secondHandAnimationPhase (secondHandPhysics cfg s sec ms) <> OVERSHOOT.
Proof.
  intros Heq. unfold secondHandPhysics.
  rewrite (proj2 (newSecondDetected_false s sec) Heq).
  destruct (secondHandAnimationPhase s); cbn; try discriminate.
  - destruct (_ && _); [|discriminate].
    destruct (creepingCase_cases s ms) as [-> | ->]; discriminate.
  - destruct (creepingCase_cases s ms) as [-> | ->]; discriminate.
Qed.

(** Without a tick, a step from one of the four named phases keeps the
    remembered second and the base angle. *)
Lemma step_no_tick_keeps (s : SecondHand num) (sec ms : Z) :
  sec = lastSystemSecond s -> secondHandAnimationPhase s <> OTHER ->
  lastSystemSecond (secondHandPhysics cfg s sec ms) = lastSystemSecond s
  /\ targetSecondBaseAngle (secondHandPhysics cfg s sec ms)
     = targetSecondBaseAngle s.
Proof.
  intros Heq Hp. unfold secondHandPhysics.
  rewrite (proj2 (newSecondDetected_false s sec) Heq).
  destruct (secondHandAnimationPhase s); cbn; try (split; reflexivity).
  - destruct (_ && _); [|split; reflexivity].
    destruct (creepingCase_cases s ms) as [-> | ->]; split; reflexivity.
  - destruct (creepingCase_cases s ms) as [-> | ->]; split; reflexivity.
  - contradiction.
Qed.

End Transitions.

(** ** Overshoot, recoil, settle *)

(** C1.  (i) From any hand in phase OVERSHOOT, a frame that reads the
    remembered second (no tick) moves to RECOIL, shows
    [targetSecondBaseAngle + recoilDegrees] and sets the blur to [+1].
    (ii) From any hand in phase RECOIL, such a frame moves to SETTLED,
    shows exactly [targetSecondBaseAngle] and sets the blur to [-1].
    (iii) Hence a tick at second [sec] followed by two frames within that
    second passes through OVERSHOOT, RECOIL, SETTLED and ends showing
    exactly [(sec / 60) * 360].
    (iv) On doubles with the default configuration, a tick at second 15
    followed by two frames shows 92, 88.5 and 90, with blur -1, +1, -1. *)
Theorem overshoot_recoil_settled :
  (forall (num : Type) (N : JsNumber num) (cfg : SecondHandPhysics num)
          (s : SecondHand num) (sec ms : Z),
      secondHandAnimationPhase s = OVERSHOOT -> sec = lastSystemSecond s ->
      secondHandAnimationPhase (secondHandPhysics cfg s sec ms) = RECOIL
      /\ currentSecondHandVisualAngle (secondHandPhysics cfg s sec ms)
         = (targetSecondBaseAngle s + recoilDegrees cfg)%js
      /\ blurSecondHandEffect (secondHandPhysics cfg s sec ms) = 1%Z)
  /\ (forall (num : Type) (N : JsNumber num) (cfg : SecondHandPhysics num)
             (s : SecondHand num) (sec ms : Z),
      secondHandAnimationPhase s = RECOIL -> sec = lastSystemSecond s ->
      secondHandAnimationPhase (secondHandPhysics cfg s sec ms) = SETTLED
      /\ currentSecondHandVisualAngle (secondHandPhysics cfg s sec ms)
         = targetSecondBaseAngle s
      /\ blurSecondHandEffect (secondHandPhysics cfg s sec ms) = (-1)%Z)
  /\ (forall (num : Type) (N : JsNumber num) (cfg : SecondHandPhysics num)
             (s0 : SecondHand num) (sec ms1 ms2 ms3 : Z),
      sec <> lastSystemSecond s0 ->
      let s1 := secondHandPhysics cfg s0 sec ms1 in
      let s2 := secondHandPhysics cfg s1 sec ms2 in
      let s3 := secondHandPhysics cfg s2 sec ms3 in
      secondHandAnimationPhase s1 = OVERSHOOT
      /\ secondHandAnimationPhase s2 = RECOIL
      /\ secondHandAnimationPhase s3 = SETTLED
      /\ currentSecondHandVisualAngle s3 = secondBaseAngle sec)
  /\ (forall (s0 : SecondHand float) (ms1 ms2 ms3 : Z),
      15%Z <> lastSystemSecond s0 ->
      let s1 := secondHandPhysics defaultConfig s0 15 ms1 in
      let s2 := secondHandPhysics defaultConfig s1 15 ms2 in
      let s3 := secondHandPhysics defaultConfig s2 15 ms3 in
      (currentSecondHandVisualAngle s1 = 92%float
       /\ blurSecondHandEffect s1 = (-1)%Z)
      /\ (currentSecondHandVisualAngle s2 = 88.5%float
          /\ blurSecondHandEffect s2 = 1%Z)
      /\ (currentSecondHandVisualAngle s3 = 90%float
          /\ blurSecondHandEffect s3 = (-1)%Z)).
Proof.
  split; [|split; [|split]].
  - intros num N cfg s sec ms Hp Heq.
    rewrite (step_overshoot cfg s sec ms Hp Heq). cbn. auto.
  - intros num N cfg s sec ms Hp Heq.
    rewrite (step_recoil cfg s sec ms Hp Heq). cbn. auto.
  - intros num N cfg s0 sec ms1 ms2 ms3 Hne s1 s2 s3. subst s1 s2 s3.
    rewrite (step_tick cfg s0 sec ms1 Hne).
    rewrite (step_overshoot cfg _ sec ms2) by reflexivity.
    rewrite (step_recoil cfg _ sec ms3) by reflexivity.
    cbn. auto.
  - intros s0 ms1 ms2 ms3 Hne s1 s2 s3. subst s1 s2 s3.
    rewrite (step_tick defaultConfig s0 15 ms1 Hne).
    rewrite (step_overshoot defaultConfig _ 15 ms2) by reflexivity.
    rewrite (step_recoil defaultConfig _ 15 ms3) by reflexivity.
    cbn. repeat split; reflexivity.
Qed.

Lemma overshoot_recoil_settled_witness :
  (15%Z <> lastSystemSecond (startHand (num := float) 15000))
  /\ currentSecondHandVisualAngle
       (run defaultConfig (startHand 15000) [15000; 15020; 15040]%Z)
     = 90%float.
Proof.
  split.
  - vm_compute. discriminate.
  - refine (proj1 (proj2 (proj2
      (proj2 (proj2 (proj2 overshoot_recoil_settled))
         (startHand 15000) 0 20 40 _)%Z))).
    vm_compute. discriminate.
Defined.

(** ** Tick detection *)

(** C2, as the claim states its middle sentence: whenever more than one
    whole second lies between two consecutive accepted frames, the
    second frame fires a tick.  It fails for a gap of exactly one
    minute: the hand started at second 15 ticks on a frame at 00:00:15,
    and the frame at 00:01:15 reads second 15 again, detects no new
    second and merely carries on to RECOIL. *)
Lemma tick_after_a_minute_counterexample :
  (75000 - 15000 > 1000)%Z
  /\ newSecondDetected
       (run defaultConfig (startHand 15000) [15000%Z])
       (Date.getSeconds 75000) = false
  /\ secondHandAnimationPhase
       (run defaultConfig (startHand 15000) [15000; 75000]%Z) = RECOIL.
Proof. vm_compute. repeat split; reflexivity. Qed.

(** C2, amended.  (i) A tick is detected exactly when the second read
    differs from [lastSystemSecond].  (ii) On a tick the machine sets
    [lastSystemSecond] to the second read, [targetSecondBaseAngle] to
    [(seconds / 60) * 360], the phase to OVERSHOOT, the visual angle to
    base + [overshootDegrees] and the blur to [-1].  (iii) If more than
    one second and at most 59 seconds lie between two consecutive
    accepted frames, the second frame is one tick that jumps straight to
    the base angle of the second it reads; for longer gaps (i) decides,
    and a gap of a whole minute fires none.  (iv) Reading the same
    second on two consecutive steps never makes the second step enter
    OVERSHOOT. *)
Theorem tick_detection :
  (forall (num : Type) (s : SecondHand num) (sec : Z),
      newSecondDetected s sec = true <-> sec <> lastSystemSecond s)
  /\ (forall (num : Type) (N : JsNumber num) (cfg : SecondHandPhysics num)
             (s : SecondHand num) (sec ms : Z),
      sec <> lastSystemSecond s ->
      secondHandPhysics cfg s sec ms =
        {| lastSystemSecond := sec;
           secondHandAnimationPhase := OVERSHOOT;
           targetSecondBaseAngle := secondBaseAngle sec;
           currentSecondHandVisualAngle :=
             (secondBaseAngle sec + overshootDegrees cfg)%js;
           blurSecondHandEffect := -1 |})
  /\ (forall (num : Type) (N : JsNumber num) (cfg : SecondHandPhysics num)
             (s : SecondHand num) (t1 t2 : Date.t),
      (1000 < t2 - t1 <= 59000)%Z ->
      let s1 := run cfg s [t1] in
      newSecondDetected s1 (Date.getSeconds t2) = true
      /\ run cfg s1 [t2] =
           {| lastSystemSecond := Date.getSeconds t2;
              secondHandAnimationPhase := OVERSHOOT;
              targetSecondBaseAngle := secondBaseAngle (Date.getSeconds t2);
              currentSecondHandVisualAngle :=
                (secondBaseAngle (Date.getSeconds t2) + overshootDegrees cfg)%js;
              blurSecondHandEffect := -1 |})
  /\ (forall (num : Type) (N : JsNumber num) (cfg : SecondHandPhysics num)
             (s : SecondHand num) (sec ms ms' : Z),
      secondHandAnimationPhase
        (secondHandPhysics cfg (secondHandPhysics cfg s sec ms) sec ms')
      <> OVERSHOOT).
Proof.
  split; [|split; [|split]].
  - intros num s sec. unfold newSecondDetected.
    rewrite negb_true_iff. apply Z.eqb_neq.
  - intros num N cfg s sec ms Hne. now apply step_tick.
  - intros num N cfg s t1 t2 Hgap s1.
    assert (Hne : Date.getSeconds t2 <> lastSystemSecond s1).
    { unfold s1, run. cbn [fold_left]. rewrite step_lastSystemSecond.
      apply getSeconds_differ. lia. }
    split.
    + now apply newSecondDetected_true.
    + unfold run at 1. cbn [fold_left]. now apply step_tick.
  - intros num N cfg s sec ms ms'.
    apply step_no_tick_not_overshoot. now rewrite step_lastSystemSecond.
Qed.

Lemma tick_detection_witness :
  (8%Z <> lastSystemSecond (startHand (num := float) 6000))
  /\ secondHandPhysics defaultConfig (startHand 6000) 8 0 =
       {| lastSystemSecond := 8;
          secondHandAnimationPhase := OVERSHOOT;
          targetSecondBaseAngle := 48%float;
          currentSecondHandVisualAngle := 50%float;
          blurSecondHandEffect := -1 |}.
Proof.
  split.
  - vm_compute. discriminate.
  - refine (proj1 (proj2 tick_detection) float _ defaultConfig
              (startHand 6000) 8%Z 0%Z _).
    vm_compute. discriminate.
Defined.

(** ** What a frame without a tick leaves alone *)

(** C10.  (i) A step that detects no tick, taken in one of the phases
    OVERSHOOT, RECOIL, SETTLED, CREEPING, leaves [lastSystemSecond] and
    [targetSecondBaseAngle] as they were.  They are reassigned only
    (ii) by a tick, which stores the second read and its base angle, and
    (iii) by the [default:] arm of an unrecognised phase, which
    recomputes the base angle from the second read. *)
Theorem no_tick_keeps_second_and_base :
  (forall (num : Type) (N : JsNumber num) (cfg : SecondHandPhysics num)
          (s : SecondHand num) (sec ms : Z),
      sec = lastSystemSecond s ->
      secondHandAnimationPhase s = OVERSHOOT
      \/ secondHandAnimationPhase s = RECOIL
      \/ secondHandAnimationPhase s = SETTLED
      \/ secondHandAnimationPhase s = CREEPING ->
      lastSystemSecond (secondHandPhysics cfg s sec ms) = lastSystemSecond s
      /\ targetSecondBaseAngle (secondHandPhysics cfg s sec ms)
         = targetSecondBaseAngle s)
  /\ (forall (num : Type) (N : JsNumber num) (cfg : SecondHandPhysics num)
             (s : SecondHand num) (sec ms : Z),
      sec <> lastSystemSecond s ->
      lastSystemSecond (secondHandPhysics cfg s sec ms) = sec
      /\ targetSecondBaseAngle (secondHandPhysics cfg s sec ms)
         = secondBaseAngle sec)
  /\ (forall (num : Type) (N : JsNumber num) (cfg : SecondHandPhysics num)
             (s : SecondHand num) (sec ms : Z),
      sec = lastSystemSecond s -> secondHandAnimationPhase s = OTHER ->
      lastSystemSecond (secondHandPhysics cfg s sec ms) = lastSystemSecond s
      /\ targetSecondBaseAngle (secondHandPhysics cfg s sec ms)
         = secondBaseAngle sec).
Proof.
  split; [|split].
  - intros num N cfg s sec ms Heq Hp. apply step_no_tick_keeps; [exact Heq|].
    intros Hother. rewrite Hother in Hp.
    destruct Hp as [Hp | [Hp | [Hp | Hp]]]; discriminate.
  - intros num N cfg s sec ms Hne. rewrite (step_tick cfg s sec ms Hne).
    split; reflexivity.
  - intros num N cfg s sec ms Heq Hp. rewrite (step_other cfg s sec ms Hp Heq).
    split; reflexivity.
Qed.

Lemma no_tick_keeps_second_and_base_witness :
  lastSystemSecond
    (secondHandPhysics defaultConfig
       (run defaultConfig (startHand 15000) [15000]) 15 20)
  = lastSystemSecond (run defaultConfig (startHand 15000) [15000])
  /\ targetSecondBaseAngle
       (secondHandPhysics defaultConfig
          (run defaultConfig (startHand 15000) [15000]) 15 20)
     = targetSecondBaseAngle (run defaultConfig (startHand 15000) [15000]).
Proof.
  apply (proj1 no_tick_keeps_second_and_base).
  - vm_compute. reflexivity.
  - left. vm_compute. reflexivity.
Defined.

(** ** Creep *)

(** C3.  (i) A no-tick step from SETTLED with
    [0 < msUntilNextTick <= creepDurationMs], where [msUntilNextTick] is
    [1000 - milliseconds], ends in CREEPING within that same step and
    shows [targetSecondBaseAngle + clamp((creepDurationMs -
    msUntilNextTick) / creepDurationMs, 0, 1) * creepAngleDegrees],
    without blur.  (ii) A no-tick step from CREEPING inside the window
    uses the same formula.  (iii) On doubles with the default
    configuration, a hand settled at 120 degrees reading 880 ms shows
    120.4 degrees. *)
Theorem settled_creeps_in_same_frame :
  (forall (num : Type) (N : JsNumber num) (O : JsOrder num)
          (cfg : SecondHandPhysics num) (s : SecondHand num) (sec ms : Z),
      secondHandAnimationPhase s = SETTLED
      \/ secondHandAnimationPhase s = CREEPING ->
      sec = lastSystemSecond s ->
      0 < 1000 - ms ->
      (of_Z (1000 - ms) <=? creepDurationMs cfg)%js = true ->
      secondHandAnimationPhase (secondHandPhysics cfg s sec ms) = CREEPING
      /\ currentSecondHandVisualAngle (secondHandPhysics cfg s sec ms)
         = (targetSecondBaseAngle s
            + Math_max (of_Z 0)
                (Math_min (of_Z 1)
                   ((creepDurationMs cfg - of_Z (1000 - ms))
                    / creepDurationMs cfg))
              * creepAngleDegrees cfg)%js
      /\ blurSecondHandEffect (secondHandPhysics cfg s sec ms) = 0)
  /\ (forall (b : Z),
      secondHandPhysics defaultConfig
        {| lastSystemSecond := 20;
           secondHandAnimationPhase := SETTLED;
           targetSecondBaseAngle := 120%float;
           currentSecondHandVisualAngle := 120%float;
           blurSecondHandEffect := b |} 20 880
      = {| lastSystemSecond := 20;
           secondHandAnimationPhase := CREEPING;
           targetSecondBaseAngle := 120%float;
           currentSecondHandVisualAngle := 120.4%float;
           blurSecondHandEffect := 0 |}).
Proof.
  split.
  - intros num N O cfg s sec ms [Hp | Hp] Heq Hpos Hle.
    + rewrite (step_settled_creep cfg s sec ms Hp Heq Hpos Hle).
      cbn. auto.
    + rewrite (step_creeping_inside cfg s sec ms Hp Heq ltac:(lia) Hle).
      cbn. auto.
  - intros b. vm_compute. reflexivity.
Qed.

Lemma settled_creeps_in_same_frame_witness :
  secondHandAnimationPhase
    (secondHandPhysics defaultConfig
       (run defaultConfig (startHand 20000) [20000; 20020; 20040]) 20 880)
  = CREEPING
  /\ currentSecondHandVisualAngle
       (secondHandPhysics defaultConfig
          (run defaultConfig (startHand 20000) [20000; 20020; 20040]) 20 880)
     = (targetSecondBaseAngle
          (run defaultConfig (startHand 20000) [20000; 20020; 20040])
        + Math_max (of_Z 0)
            (Math_min (of_Z 1)
               ((creepDurationMs defaultConfig - of_Z (1000 - 880))
                / creepDurationMs defaultConfig))
          * creepAngleDegrees defaultConfig)%js
  /\ blurSecondHandEffect
       (secondHandPhysics defaultConfig
          (run defaultConfig (startHand 20000) [20000; 20020; 20040]) 20 880)
     = 0.
Proof.
  apply (proj1 settled_creeps_in_same_frame float _ _).
  - left. vm_compute. reflexivity.
  - vm_compute. reflexivity.
  - lia.
  - vm_compute. reflexivity.
Defined.

(** C7.  A no-tick step from CREEPING whose [msUntilNextTick] is
    negative or exceeds [creepDurationMs] returns to SETTLED at once,
    showing exactly the unchanged [targetSecondBaseAngle]; the creep in
    progress is dropped, and no blur is signalled. *)
Theorem creeping_out_of_window_settles
    (num : Type) (N : JsNumber num) (cfg : SecondHandPhysics num)
    (s : SecondHand num) (sec ms : Z) :
  secondHandAnimationPhase s = CREEPING ->
  sec = lastSystemSecond s ->
  1000 - ms < 0 \/ (of_Z (1000 - ms) >? creepDurationMs cfg)%js = true ->
  secondHandAnimationPhase (secondHandPhysics cfg s sec ms) = SETTLED
  /\ currentSecondHandVisualAngle (secondHandPhysics cfg s sec ms)
     = targetSecondBaseAngle s
  /\ targetSecondBaseAngle (secondHandPhysics cfg s sec ms)
     = targetSecondBaseAngle s
  /\ lastSystemSecond (secondHandPhysics cfg s sec ms) = lastSystemSecond s
  /\ blurSecondHandEffect (secondHandPhysics cfg s sec ms) = 0.
Proof.
  intros Hp Heq Hout.
  rewrite (step_creeping_outside cfg s sec ms Hp Heq Hout).
  cbn. auto.
Qed.

Lemma creeping_out_of_window_settles_witness :
  secondHandPhysics defaultConfig creepingAtTen 10 1001 =
    {| lastSystemSecond := 10;
       secondHandAnimationPhase := SETTLED;
       targetSecondBaseAngle := 60%float;
       currentSecondHandVisualAngle := 60%float;
       blurSecondHandEffect := 0 |}
  /\ secondHandAnimationPhase
       (secondHandPhysics defaultConfig creepingAtTen 10 300) = SETTLED.
Proof.
  split.
  - vm_compute. reflexivity.
  - apply (creeping_out_of_window_settles float _ defaultConfig
             creepingAtTen 10 300).
    + reflexivity.
    + reflexivity.
    + right. vm_compute. reflexivity.
Defined.

(** ** The throttle *)

(** C8.  A callback on a running clock that arrives sooner than
    [1000 / maxRefreshRateHz] milliseconds (20 ms: the rate is the
    constant 50) after the last processed frame only requests the next
    callback: the hand (phase, remembered second, base angle, visual
    angle, blur), the last processed timestamp, the configuration and
    the running flag are as before, nothing is drawn, and the only
    change is the handle of the new request.  On doubles the interval is
    exactly 20. *)
Theorem throttled_frame_is_passthrough :
  (forall (num : Type) (N : JsNumber num) (timestamp : num) (now : Date.t)
          (c : Clock num) (h : Host num),
      isRunning c = true ->
      ((timestamp - lastTimestamp c) <? (of_Z 1000 / of_Z 50))%js = true ->
      hand (fst (_animationLoop timestamp now c h)) = hand c
      /\ lastTimestamp (fst (_animationLoop timestamp now c h))
         = lastTimestamp c
      /\ config (fst (_animationLoop timestamp now c h)) = config c
      /\ isRunning (fst (_animationLoop timestamp now c h)) = isRunning c
      /\ animationFrameId (fst (_animationLoop timestamp now c h))
         = Some (nextHandle h)
      /\ snd (_animationLoop timestamp now c h)
         = snd (requestAnimationFrame h)
      /\ drawn (snd (_animationLoop timestamp now c h)) = drawn h)
  /\ (of_Z 1000 / of_Z maxRefreshRateHz)%js = 20%float.
Proof.
  split.
  - intros num N timestamp now c h Hrun Hsoon.
    unfold _animationLoop. rewrite Hrun. cbn [negb].
    unfold throttled, maxRefreshRateHz. rewrite Hsoon.
    cbn. repeat split; reflexivity.
  - vm_compute. reflexivity.
Qed.

Lemma throttled_frame_is_passthrough_witness :
  hand (fst (_animationLoop 1016.5%float 15016 runningClock someHost))
  = hand runningClock
  /\ lastTimestamp
       (fst (_animationLoop 1016.5%float 15016 runningClock someHost))
     = lastTimestamp runningClock.
Proof.
  destruct (proj1 throttled_frame_is_passthrough float _
              1016.5%float 15016 runningClock someHost)
    as (Hh & Ht & _).
  - reflexivity.
  - vm_compute. reflexivity.
  - split; [exact Hh | exact Ht].
Defined.

(** ** Runs of frames *)

Lemma run_app {num} `{JsNumber num} (cfg : SecondHandPhysics num)
    (s : SecondHand num) (l1 l2 : list Date.t) :
  run cfg s (l1 ++ l2) = run cfg (run cfg s l1) l2.
Proof. unfold run. apply fold_left_app. Qed.

(** A property that every step preserves holds at the end of every run. *)
Lemma run_invariant {num} `{JsNumber num} (cfg : SecondHandPhysics num)
    (P : SecondHand num -> Prop) :
  (forall s now, P s ->
     P (secondHandPhysics cfg s (Date.getSeconds now)
          (Date.getMilliseconds now))) ->
  forall nows s, P s -> P (run cfg s nows).
Proof.
  intros Hstep nows. induction nows as [|now nows IH]; intros s Hs.
  - exact Hs.
  - cbn. apply IH, Hstep, Hs.
Qed.

(** No run from [start()] reaches the [default:] arm. *)
Lemma run_phase_known {num} `{JsNumber num} (cfg : SecondHandPhysics num)
    (now0 : Date.t) (nows : list Date.t) :
  secondHandAnimationPhase (run cfg (startHand now0) nows) <> OTHER.
Proof.
  apply (run_invariant cfg (fun s => secondHandAnimationPhase s <> OTHER)).
  - intros s now _. apply step_phase_known.
  - discriminate.
Qed.

(** ** The frame callback runs the state machine *)


Lemma animationLoop_config {num} `{JsNumber num} (timestamp : num)
    (now : Date.t) (c : Clock num) (h : Host num) :
  config (fst (_animationLoop timestamp now c h)) = config c.
Proof.
  unfold _animationLoop.
  destruct (negb (isRunning c)); [reflexivity|].
  destruct (throttled c timestamp); [reflexivity|].
  destruct (isRunning c); reflexivity.
Qed.


(** ** The base angle and the remembered second *)

Lemma step_baseFollowsSecond {num} `{JsNumber num}
    (cfg : SecondHandPhysics num) (s : SecondHand num) (sec ms : Z) :
  secondHandAnimationPhase s <> OTHER -> baseFollowsSecond s ->
  baseFollowsSecond (secondHandPhysics cfg s sec ms).
Proof.
  intros Hp Hinv. unfold baseFollowsSecond in *.
  destruct (Z.eq_dec sec (lastSystemSecond s)) as [Heq | Hne].
  - destruct (step_no_tick_keeps cfg s sec ms Heq Hp) as [-> ->].
    exact Hinv.
  - now rewrite (step_tick cfg s sec ms Hne).
Qed.

(** C5, as the claim states it, fails in the state [start()] creates:
    started at second 15, the hand is SETTLED with the remembered second
    seeded to 14 and the base angle already that of second 15, which is
    90 and not 84. *)
Lemma start_state_counterexample :
  secondHandAnimationPhase (startHand (num := float) 15000) = SETTLED
  /\ lastSystemSecond (startHand (num := float) 15000) = 14
  /\ targetSecondBaseAngle (startHand 15000) = 90%float
  /\ secondBaseAngle (lastSystemSecond (startHand (num := float) 15000))
     = 84%float
  /\ ~ baseFollowsSecond (startHand (num := float) 15000).
Proof.
  repeat split; try (vm_compute; reflexivity).
  unfold baseFollowsSecond. intros Heq.
  apply (f_equal (fun x => PrimFloat.ltb x 85%float)) in Heq.
  vm_compute in Heq. discriminate.
Qed.

(** C5, amended.  (i) [start()] leaves the hand SETTLED on the base
    angle of the current second with the remembered second seeded to
    [(currentSecond + 59) % 60], which is [(currentSecond - 1) mod 60],
    so that a first frame taken within the same second is a tick; the
    invariant does not hold yet.  (ii) Every tick establishes
    [targetSecondBaseAngle = (lastSystemSecond / 60) * 360], and it then
    holds in every phase, in every state a run from [start()] reaches
    after its first tick. *)
Theorem base_angle_follows_last_tick :
  (forall (num : Type) (N : JsNumber num) (now0 : Date.t),
      lastSystemSecond (startHand (num := num) now0)
      = (Date.getSeconds now0 - 1) mod 60
      /\ targetSecondBaseAngle (startHand now0)
         = secondBaseAngle (Date.getSeconds now0)
      /\ secondHandAnimationPhase (startHand (num := num) now0) = SETTLED
      /\ newSecondDetected (startHand (num := num) now0)
           (Date.getSeconds now0) = true)
  /\ (forall (num : Type) (N : JsNumber num) (cfg : SecondHandPhysics num)
             (now0 : Date.t) (before : list Date.t) (tick : Date.t)
             (after : list Date.t),
      newSecondDetected (run cfg (startHand now0) before)
        (Date.getSeconds tick) = true ->
      baseFollowsSecond
        (run cfg (startHand now0) (before ++ tick :: after))).
Proof.
  split.
  - intros num N now0.
    pose proof (getSeconds_range now0) as Hr.
    assert (Hseed : Z.rem (Date.getSeconds now0 + 59) 60
                    = (Date.getSeconds now0 - 1) mod 60).
    { rewrite Z.rem_mod_nonneg by lia.
      replace (Date.getSeconds now0 + 59)
        with (Date.getSeconds now0 - 1 + 1 * 60) by lia.
      apply Z.mod_add. lia. }
    repeat split; [exact Hseed|].
    apply newSecondDetected_true. cbn [startHand lastSystemSecond].
    rewrite Hseed. intros Heq.
    pose proof (Z.div_mod (Date.getSeconds now0 - 1) 60 ltac:(lia)) as Hd.
    pose proof (Z.mod_pos_bound (Date.getSeconds now0 - 1) 60 ltac:(lia)).
    lia.
  - intros num N cfg now0 before tick after Htick.
    rewrite run_app.
    change (run cfg ?s (tick :: after))
      with (run cfg (secondHandPhysics cfg s (Date.getSeconds tick)
                       (Date.getMilliseconds tick)) after).
    apply newSecondDetected_true in Htick.
    rewrite (step_tick cfg _ _ (Date.getMilliseconds tick) Htick).
    pose (P := fun s : SecondHand num =>
                 secondHandAnimationPhase s <> OTHER /\ baseFollowsSecond s).
    apply (run_invariant cfg P).
    + intros s now [Hp Hinv]. split.
      * apply step_phase_known.
      * now apply step_baseFollowsSecond.
    + split; [discriminate | reflexivity].
Qed.

Lemma base_angle_follows_last_tick_witness :
  newSecondDetected (run defaultConfig (startHand 15000) [])
    (Date.getSeconds 15010) = true
  /\ baseFollowsSecond
       (run defaultConfig (startHand 15000)
          ([] ++ 15010 :: [15030; 15050; 15900; 16001])).
Proof.
  split.
  - vm_compute. reflexivity.
  - apply (proj2 base_angle_follows_last_tick float _ defaultConfig
             15000 [] 15010 [15030; 15050; 15900; 16001]).
    vm_compute. reflexivity.
Defined.

(** ** The hour and minute angles *)

Lemma upto_spec (n : nat) (z : Z) : 0 <= z < Z.of_nat n -> In z (upto n).
Proof.
  intros Hz. unfold upto. apply in_map_iff.
  exists (Z.to_nat z). split; [lia|]. apply in_seq. lia.
Qed.

Lemma hourAngle_inCircle_all :
  forallb (fun h => forallb (fun m => inCircle (hourAngleOf h m)) (upto 60))
    (upto 24) = true.
Proof. vm_compute. reflexivity. Qed.

Lemma minuteAngle_inCircle_all :
  forallb (fun m => forallb (fun s => inCircle (minuteAngleOf m s)) (upto 60))
    (upto 60) = true.
Proof. vm_compute. reflexivity. Qed.

Lemma secondBaseAngle_inCircle_all :
  forallb (fun s => inCircle (secondBaseAngle s)) (upto 60) = true.
Proof. vm_compute. reflexivity. Qed.

(** C9, as the claim states the minute angle, fails: at 15 minutes and
    0 seconds the source computes 90 degrees, while
    [(minutes + seconds/60) / 60 * 6 * 10] is 15, on doubles and on
    rationals alike ([6 * 10] is 60, not 360). *)
Lemma minute_angle_counterexample :
  minuteAngleOf 15 0 = 90%float
  /\ minuteAngleAsSpecified 15 0 = 15%float
  /\ minuteAngleOf (num := float) 15 0 <> minuteAngleAsSpecified 15 0
  /\ ~ (minuteAngleOf (num := Q) 15 0 == minuteAngleAsSpecified 15 0)%Q.
Proof.
  split; [vm_compute; reflexivity|].
  split; [vm_compute; reflexivity|].
  split.
  - intros Heq.
    apply (f_equal (fun x => PrimFloat.ltb x 50%float)) in Heq.
    vm_compute in Heq. discriminate.
  - vm_compute. discriminate.
Qed.

(** C9, amended.  For every reading (hours 0-23, minutes 0-59, seconds
    0-59) the source computes, on doubles,
    [hourAngle = ((hours mod 12) + minutes/60) / 12 * 360],
    [minuteAngle = (minutes + seconds/60) / 60 * 360] and
    [secondBaseAngle = seconds/60 * 360], and all three lie in
    [0, 360). *)
Theorem hand_angles (hours minutes seconds : Z) :
  0 <= hours < 24 -> 0 <= minutes < 60 -> 0 <= seconds < 60 ->
  hourAngleOf hours minutes
  = (((Binary64.of_Z (hours mod 12) + Binary64.of_Z minutes / 60) / 12)
     * 360)%float
  /\ minuteAngleOf minutes seconds
     = (((Binary64.of_Z minutes + Binary64.of_Z seconds / 60) / 60)
        * 360)%float
  /\ secondBaseAngle seconds = ((Binary64.of_Z seconds / 60) * 360)%float
  /\ inCircle (hourAngleOf hours minutes) = true
  /\ inCircle (minuteAngleOf minutes seconds) = true
  /\ inCircle (secondBaseAngle seconds) = true.
Proof.
  intros Hh Hm Hs.
  split; [|split; [|split; [|split; [|split]]]].
  - unfold hourAngleOf. rewrite Z.rem_mod_nonneg by lia. reflexivity.
  - reflexivity.
  - reflexivity.
  - pose proof hourAngle_inCircle_all as Hall.
    rewrite forallb_forall in Hall.
    specialize (Hall hours (upto_spec 24 hours ltac:(lia))).
    rewrite forallb_forall in Hall.
    exact (Hall minutes (upto_spec 60 minutes ltac:(lia))).
  - pose proof minuteAngle_inCircle_all as Hall.
    rewrite forallb_forall in Hall.
    specialize (Hall minutes (upto_spec 60 minutes ltac:(lia))).
    rewrite forallb_forall in Hall.
    exact (Hall seconds (upto_spec 60 seconds ltac:(lia))).
  - pose proof secondBaseAngle_inCircle_all as Hall.
    rewrite forallb_forall in Hall.
    exact (Hall seconds (upto_spec 60 seconds ltac:(lia))).
Qed.

Lemma hand_angles_witness :
  hourAngleOf 23 59 = 359.49999999999994%float
  /\ minuteAngleOf 59 59 = 359.90000000000003%float
  /\ secondBaseAngle 59 = 354%float
  /\ inCircle (hourAngleOf 23 59) = true.
Proof.
  destruct (hand_angles 23 59 59 ltac:(lia) ltac:(lia) ltac:(lia))
    as (_ & _ & _ & Hh & _ & _).
  repeat split; try exact Hh; vm_compute; reflexivity.
Defined.

(** ** Bounded excursion *)


Module ExactFacts.

Local Open Scope Q_scope.

Lemma Qle_bool_false (x y : Q) : Qle_bool x y = false -> y < x.
Proof.
  intros Hf. apply Qnot_le_lt. intros Hle.
  apply Qle_bool_iff in Hle. congruence.
Qed.

Lemma Math_min_spec (x y : Q) :
  Exact.Math_min x y <= x /\ Exact.Math_min x y <= y
  /\ (Exact.Math_min x y == x \/ Exact.Math_min x y == y).
Proof.
  unfold Exact.Math_min. destruct (Qle_bool x y) eqn:E.
  - apply Qle_bool_iff in E. repeat split; lra.
  - apply Qle_bool_false in E. repeat split; lra.
Qed.

Lemma Math_max_spec (x y : Q) :
  x <= Exact.Math_max x y /\ y <= Exact.Math_max x y
  /\ (Exact.Math_max x y == x \/ Exact.Math_max x y == y).
Proof.
  unfold Exact.Math_max. destruct (Qle_bool x y) eqn:E.
  - apply Qle_bool_iff in E. repeat split; lra.
  - apply Qle_bool_false in E. repeat split; lra.
Qed.

(** [Math.max(0, Math.min(1, q))] lies in [0, 1]. *)
Lemma clamp_unit (q : Q) :
  0 <= Exact.Math_max 0 (Exact.Math_min 1 q) <= 1.
Proof.
  destruct (Math_max_spec 0 (Exact.Math_min 1 q)) as (H0 & _ & [E | E]);
    destruct (Math_min_spec 1 q) as (H1 & _ & _); lra.
Qed.

(** A creep of [p * c] with [p] in [0, 1] and [c >= 0] lies in [0, c]. *)
Lemma creep_fraction (p c : Q) : 0 <= p <= 1 -> 0 <= c -> 0 <= p * c <= c.
Proof. intros Hp Hc. nra. Qed.

(** Unfold the record projections and the operations of the [Q]
    instance, and nothing else. *)
Ltac expose :=
  unfold creptHand, restingHand, startHand;
  cbn [targetSecondBaseAngle currentSecondHandVisualAngle
       add sub mul div of_Z Math_max Math_min Q_JsNumber];
  change (inject_Z 0) with 0; change (inject_Z 1) with 1.

Lemma bounded_intro (cfg : SecondHandPhysics Q) (s : SecondHand Q) :
  targetSecondBaseAngle s + Exact.Math_min 0 (recoilDegrees cfg)
    <= currentSecondHandVisualAngle s ->
  currentSecondHandVisualAngle s
    <= targetSecondBaseAngle s
       + Exact.Math_max (creepAngleDegrees cfg) (overshootDegrees cfg) ->
  excursionBounded cfg s = true.
Proof.
  intros Hlo Hhi. unfold excursionBounded. apply andb_true_intro.
  split; apply Qle_bool_iff; assumption.
Qed.

Section Bounded.

Variable cfg : SecondHandPhysics Q.
Hypothesis creep_nonneg : 0 <= creepAngleDegrees cfg.
Hypothesis overshoot_above :
  Exact.Math_min 0 (recoilDegrees cfg) <= overshootDegrees cfg.
Hypothesis recoil_below :
  recoilDegrees cfg
  <= Exact.Math_max (creepAngleDegrees cfg) (overshootDegrees cfg).

Lemma resting_bounded (s : SecondHand Q) :
  excursionBounded cfg (restingHand s) = true.
Proof.
  apply bounded_intro; expose.
  - destruct (Math_min_spec 0 (recoilDegrees cfg)) as (H0 & _). lra.
  - destruct (Math_max_spec (creepAngleDegrees cfg) (overshootDegrees cfg))
      as (H0 & _). lra.
Qed.

Lemma crept_bounded (s : SecondHand Q) (ms : Z) :
  excursionBounded cfg (creptHand cfg s ms) = true.
Proof.
  pose proof (creep_fraction _ _
                (clamp_unit ((creepDurationMs cfg - inject_Z (1000 - ms))
                             / creepDurationMs cfg)) creep_nonneg) as Hc.
  destruct (Math_min_spec 0 (recoilDegrees cfg)) as (H0 & _).
  destruct (Math_max_spec (creepAngleDegrees cfg) (overshootDegrees cfg))
    as (H1 & _).
  apply bounded_intro; expose; lra.
Qed.

Lemma creepingCase_bounded (s : SecondHand Q) (ms : Z) :
  excursionBounded cfg (creepingCase cfg s ms) = true.
Proof.
  destruct (creepingCase_cases cfg s ms) as [-> | ->].
  - apply resting_bounded.
  - apply crept_bounded.
Qed.

Lemma step_bounded (s : SecondHand Q) (sec ms : Z) :
  secondHandAnimationPhase s <> OTHER ->
  excursionBounded cfg (secondHandPhysics cfg s sec ms) = true.
Proof.
  intros Hp.
  destruct (Math_min_spec 0 (recoilDegrees cfg)) as (Hm0 & Hm1 & _).
  destruct (Math_max_spec (creepAngleDegrees cfg) (overshootDegrees cfg))
    as (Hx0 & Hx1 & _).
  unfold secondHandPhysics.
  destruct (newSecondDetected s sec).
  - apply bounded_intro; expose; lra.
  - destruct (secondHandAnimationPhase s).
    + destruct (_ && _).
      * apply creepingCase_bounded.
      * apply (resting_bounded s).
    + apply creepingCase_bounded.
    + apply bounded_intro; expose; lra.
    + apply bounded_intro; expose; lra.
    + contradiction.
Qed.

Lemma start_bounded (now0 : Date.t) :
  excursionBounded cfg (startHand now0) = true.
Proof.
  destruct (Math_min_spec 0 (recoilDegrees cfg)) as (Hm0 & Hm1 & _).
  destruct (Math_max_spec (creepAngleDegrees cfg) (overshootDegrees cfg))
    as (Hx0 & Hx1 & _).
  apply bounded_intro; expose; lra.
Qed.

Lemma run_bounded (now0 : Date.t) (nows : list Date.t) :
  excursionBounded cfg (run cfg (startHand now0) nows) = true.
Proof.
  pose (P := fun s : SecondHand Q =>
               secondHandAnimationPhase s <> OTHER
               /\ excursionBounded cfg s = true).
  apply (run_invariant cfg P).
  - intros s now [Hp _]. split.
    + apply step_phase_known.
    + now apply step_bounded.
  - split; [discriminate | apply start_bounded].
Qed.

End Bounded.

End ExactFacts.



(** ** Configurations the source does not validate *)


Module NoCreep.

Section NonPositiveDuration.

Variable cfg : SecondHandPhysics float.
Hypothesis duration_nonpositive :
  PrimFloat.leb (creepDurationMs cfg) 0 = true.

(** With a non-positive [creepDurationMs] the window test of
    [case "CREEPING"] always sends the hand back to rest. *)
Lemma creepingCase_rests (s : SecondHand float) (ms : Z) :
  0 <= ms < 1000 -> creepingCase cfg s ms = restingHand s.
Proof.
  intros Hms. apply creepingCase_outside. right.
  apply (Binary64Facts.nonpositive_below _ (1000 - ms) duration_nonpositive).
  lia.
Qed.

(** ... and the window test of [case "SETTLED"] never succeeds. *)
Lemma settled_window_closed (ms : Z) :
  0 <= ms < 1000 ->
  ((of_Z (1000 - ms) <=? creepDurationMs cfg)%js
   && (0 <? 1000 - ms)) = false.
Proof.
  intros Hms. apply andb_false_iff. left.
  apply (Binary64Facts.nonpositive_below _ (1000 - ms) duration_nonpositive).
  lia.
Qed.

(** The five hands a step can then produce. *)
Lemma step_cases (s : SecondHand float) (sec ms : Z) :
  0 <= ms < 1000 ->
  let s' := secondHandPhysics cfg s sec ms in
  secondHandAnimationPhase s' <> CREEPING
  /\ (currentSecondHandVisualAngle s' = targetSecondBaseAngle s'
      \/ currentSecondHandVisualAngle s'
         = (targetSecondBaseAngle s' + overshootDegrees cfg)%float
      \/ currentSecondHandVisualAngle s'
         = (targetSecondBaseAngle s' + recoilDegrees cfg)%float).
Proof.
  intros Hms s'. subst s'. unfold secondHandPhysics.
  destruct (newSecondDetected s sec).
  - cbn. split; [discriminate | right; left; reflexivity].
  - destruct (secondHandAnimationPhase s).
    + rewrite (settled_window_closed ms Hms).
      cbn. split; [discriminate | left; reflexivity].
    + rewrite (creepingCase_rests s ms Hms).
      cbn. split; [discriminate | left; reflexivity].
    + cbn. split; [discriminate | right; right; reflexivity].
    + cbn. split; [discriminate | left; reflexivity].
    + cbn. split; [discriminate | left; reflexivity].
Qed.

End NonPositiveDuration.

Lemma finiteAround_all : forallb finiteAround (upto 60) = true.
Proof. vm_compute. reflexivity. Qed.

Lemma step_onASecond (cfg : SecondHandPhysics float) (s : SecondHand float)
    (now : Date.t) :
  PrimFloat.leb (creepDurationMs cfg) 0 = true ->
  onASecond cfg s ->
  onASecond cfg
    (secondHandPhysics cfg s (Date.getSeconds now) (Date.getMilliseconds now)).
Proof.
  intros Hd (Hp & (sec & Hsec & Ht) & _).
  split; [apply step_phase_known|]. split.
  - destruct (Z.eq_dec (Date.getSeconds now) (lastSystemSecond s))
      as [Heq | Hne].
    + exists sec. split; [exact Hsec|].
      destruct (step_no_tick_keeps cfg s _ (Date.getMilliseconds now) Heq Hp)
        as [_ ->]. exact Ht.
    + exists (Date.getSeconds now). split; [apply getSeconds_range|].
      now rewrite (step_tick cfg s _ (Date.getMilliseconds now) Hne).
  - apply (step_cases cfg Hd). apply getMilliseconds_range.
Qed.

Lemma onASecond_finite (cfg : SecondHandPhysics float) (s : SecondHand float) :
  overshootDegrees cfg = 2%float -> recoilDegrees cfg = (-1.5)%float ->
  onASecond cfg s ->
  PrimFloat.is_finite (currentSecondHandVisualAngle s) = true.
Proof.
  intros Ho Hr (_ & (sec & Hsec & Ht) & Hv).
  pose proof finiteAround_all as Hall. rewrite forallb_forall in Hall.
  specialize (Hall sec (upto_spec 60 sec ltac:(lia))).
  unfold finiteAround in Hall.
  apply andb_true_iff in Hall. destruct Hall as [Hall H3].
  apply andb_true_iff in Hall. destruct Hall as [H1 H2].
  rewrite Ho, Hr, Ht in Hv.
  destruct Hv as [-> | [-> | ->]]; assumption.
Qed.

End NoCreep.



(** ** Bounded excursion on doubles, default configuration *)

Module DefaultExcursion.

Lemma excursionBounded_showing (s : SecondHand float) :
  excursionBounded defaultConfig s
  = excursionBounded defaultConfig
      (showing (targetSecondBaseAngle s) (currentSecondHandVisualAngle s)).
Proof. reflexivity. Qed.

Lemma checkSecond_all : forallb checkSecond (upto 60) = true.
Proof. vm_compute. reflexivity. Qed.

Lemma checked (k : Z) :
  0 <= k < 60 ->
  let t := secondBaseAngle k in
  excursionBounded defaultConfig (showing t t) = true
  /\ excursionBounded defaultConfig (showing t (t + 2)%float) = true
  /\ excursionBounded defaultConfig (showing t (t + -1.5)%float) = true
  /\ forall ms, 0 <= ms < 1000 ->
       excursionBounded defaultConfig
         (creptHand defaultConfig (showing t t) ms) = true.
Proof.
  intros Hk t. pose proof checkSecond_all as Hall.
  rewrite forallb_forall in Hall.
  specialize (Hall k (upto_spec 60 k ltac:(lia))).
  unfold checkSecond in Hall. fold t in Hall.
  apply andb_true_iff in Hall. destruct Hall as [Hall H4].
  apply andb_true_iff in Hall. destruct Hall as [Hall H3].
  apply andb_true_iff in Hall. destruct Hall as [H1 H2].
  repeat split; try assumption.
  intros ms Hms. rewrite forallb_forall in H4.
  apply H4, upto_spec. lia.
Qed.

Lemma default_step_bounded (s : SecondHand float) (now : Date.t) :
  onBase s ->
  excursionBounded defaultConfig
    (secondHandPhysics defaultConfig s
       (Date.getSeconds now) (Date.getMilliseconds now)) = true.
Proof.
  intros (Hp & k & Hk & Ht).
  pose proof (getSeconds_range now) as Hsec.
  pose proof (getMilliseconds_range now) as Hms.
  destruct (checked k Hk) as (K1 & K2 & K3 & K4).
  destruct (checked (Date.getSeconds now) Hsec) as (_ & T2 & _).
  unfold secondHandPhysics.
  destruct (newSecondDetected s (Date.getSeconds now)).
  - rewrite excursionBounded_showing. exact T2.
  - assert (Hrest : excursionBounded defaultConfig (restingHand s) = true).
    { rewrite excursionBounded_showing.
      cbn [restingHand targetSecondBaseAngle currentSecondHandVisualAngle].
      rewrite Ht. exact K1. }
    assert (Hcrept : excursionBounded defaultConfig
                       (creptHand defaultConfig s (Date.getMilliseconds now))
                     = true).
    { rewrite excursionBounded_showing.
      specialize (K4 _ Hms). rewrite excursionBounded_showing in K4.
      cbn [creptHand showing targetSecondBaseAngle
           currentSecondHandVisualAngle] in K4 |- *.
      rewrite Ht. exact K4. }
    assert (Hcase : excursionBounded defaultConfig
                      (creepingCase defaultConfig s (Date.getMilliseconds now))
                    = true).
    { destruct (creepingCase_cases defaultConfig s (Date.getMilliseconds now))
        as [-> | ->]; assumption. }
    destruct (secondHandAnimationPhase s).
    + destruct (_ && _); [exact Hcase | exact Hrest].
    + exact Hcase.
    + rewrite excursionBounded_showing.
      cbn [targetSecondBaseAngle currentSecondHandVisualAngle].
      rewrite Ht. exact K3.
    + rewrite excursionBounded_showing.
      cbn [targetSecondBaseAngle currentSecondHandVisualAngle].
      rewrite Ht. exact K1.
    + contradiction.
Qed.

Lemma step_onBase (s : SecondHand float) (now : Date.t) :
  onBase s ->
  onBase (secondHandPhysics defaultConfig s
            (Date.getSeconds now) (Date.getMilliseconds now)).
Proof.
  intros (Hp & k & Hk & Ht). split; [apply step_phase_known|].
  destruct (Z.eq_dec (Date.getSeconds now) (lastSystemSecond s))
    as [Heq | Hne].
  - exists k. split; [exact Hk|].
    destruct (step_no_tick_keeps defaultConfig s _
                (Date.getMilliseconds now) Heq Hp) as [_ ->].
    exact Ht.
  - exists (Date.getSeconds now). split; [apply getSeconds_range|].
    now rewrite (step_tick defaultConfig s _ (Date.getMilliseconds now) Hne).
Qed.

End DefaultExcursion.

(** X1.
    On doubles, with the default configuration, every state that a run
    of frames reaches from the state [start()] creates shows a visual
    angle within [base + min(0, -1.5), base + max(2, 2)] of the base
    angle it holds. *)
Theorem bounded_excursion_default_binary64
    (now0 : Date.t) (nows : list Date.t) :
  excursionBounded defaultConfig (run defaultConfig (startHand now0) nows)
  = true.
Proof.
  pose (P := fun s : SecondHand float =>
               onBase s
               /\ excursionBounded defaultConfig s = true).
  apply (run_invariant defaultConfig P).
  - intros s now [Hb _]. split.
    + now apply DefaultExcursion.step_onBase.
    + now apply DefaultExcursion.default_step_bounded.
  - split.
    + split; [discriminate|].
      exists (Date.getSeconds now0).
      split; [apply getSeconds_range | reflexivity].
    + rewrite DefaultExcursion.excursionBounded_showing.
      cbn [startHand targetSecondBaseAngle currentSecondHandVisualAngle].
      exact (proj1 (DefaultExcursion.checked _ (getSeconds_range now0))).
Qed.

(** ** The life cycle: [start()], [stop()] and the pending request *)

Lemma start_oneRequest {num} `{JsNumber num} (now : Date.t)
    (ch : Clock num * Host num) :
  oneRequest ch -> oneRequest (start now (fst ch) (snd ch)).
Proof.
  intros Hinv. unfold start.
  destruct (isRunning (fst ch)) eqn:Hrun.
  - destruct ch as [c h]. exact Hinv.
  - unfold oneRequest in *. rewrite Hrun in Hinv.
    destruct Hinv as (Hpos & _ & Hpend). cbn.
    split; [lia|]. exists (nextHandle (snd ch)).
    rewrite Hpend. auto.
Qed.

Lemma stop_oneRequest {num} `{JsNumber num} (ch : Clock num * Host num) :
  oneRequest ch -> oneRequest (stop (fst ch) (snd ch)).
Proof.
  intros Hinv. unfold stop.
  destruct (isRunning (fst ch)) eqn:Hrun; cbn [negb].
  - unfold oneRequest in *. rewrite Hrun in Hinv.
    destruct Hinv as (Hpos & id & Hid & Hsome & Hpend).
    rewrite Hsome. cbn. rewrite Hpend. cbn. rewrite Z.eqb_refl. cbn.
    auto.
  - destruct ch as [c h]. exact Hinv.
Qed.

Lemma animationLoop_oneRequest {num} `{JsNumber num} (id : Z)
    (timestamp : num) (now : Date.t) (ch : Clock num * Host num) :
  oneRequest ch -> isPending id (snd ch) = true ->
  oneRequest (_animationLoop timestamp now (fst ch)
                (cancelAnimationFrame id (snd ch))).
Proof.
  intros Hinv Hdue. unfold oneRequest in Hinv.
  destruct (isRunning (fst ch)) eqn:Hrun.
  - destruct Hinv as (Hpos & id' & Hid' & Hsome & Hpend).
    unfold isPending in Hdue. rewrite Hpend in Hdue. cbn in Hdue.
    rewrite orb_false_r in Hdue. apply Z.eqb_eq in Hdue. subst id'.
    unfold _animationLoop. rewrite Hrun. cbn [negb].
    destruct (throttled (fst ch) timestamp);
      unfold oneRequest; cbn; rewrite ?Hrun; cbn;
      rewrite Hpend; cbn; rewrite Z.eqb_refl; cbn;
      (split; [lia|]); exists (nextHandle (snd ch)); auto.
  - destruct Hinv as (_ & _ & Hpend).
    unfold isPending in Hdue. rewrite Hpend in Hdue. discriminate.
Qed.

Lemma handle_oneRequest {num} `{JsNumber num} (e : Event num)
    (ch : Clock num * Host num) :
  oneRequest ch -> oneRequest (handle e ch).
Proof.
  intros Hinv. destruct e as [now | | id timestamp now]; cbn [handle].
  - now apply start_oneRequest.
  - now apply stop_oneRequest.
  - destruct (isPending id (snd ch)) eqn:Hdue.
    + now apply animationLoop_oneRequest.
    + exact Hinv.
Qed.



Lemma animationLoop_stopped {num} `{JsNumber num} (timestamp : num)
    (now : Date.t) (c : Clock num) (h : Host num) :
  isRunning c = false -> _animationLoop timestamp now c h = (c, h).
Proof. intros Hrun. unfold _animationLoop. now rewrite Hrun. Qed.

Lemma stop_not_running {num} `{JsNumber num} (c : Clock num) (h : Host num) :
  isRunning (fst (stop c h)) = false.
Proof.
  unfold stop. destruct (isRunning c) eqn:Hrun; cbn [negb].
  - destruct (animationFrameId c); reflexivity.
  - exact Hrun.
Qed.

Lemma cancel_pending_incl {num} (id : Z) (h : Host num) :
  incl (pending (cancelAnimationFrame id h)) (pending h).
Proof. intros i Hi. cbn in Hi. now apply filter_In in Hi. Qed.



(** X6.
    [start()] and [stop()] are idempotent, and [start()] after [stop()]
    always installs the state of a fresh start: a second [start()] in a
    row changes nothing and requests no second frame, a second [stop()]
    changes nothing, and whatever state the hand was in, restarting
    puts it SETTLED on the current second with the seeded
    [lastSystemSecond], while [lastTimestamp] is carried over. *)
Theorem start_stop_idempotent {num} `{JsNumber num}
    (now now' : Date.t) (c : Clock num) (h : Host num) :
  start now' (fst (start now c h)) (snd (start now c h)) = start now c h
  /\ stop (fst (stop c h)) (snd (stop c h)) = stop c h
  /\ hand (fst (start now (fst (stop c h)) (snd (stop c h))))
     = startHand now
  /\ isRunning (fst (start now (fst (stop c h)) (snd (stop c h)))) = true
  /\ lastTimestamp (fst (start now (fst (stop c h)) (snd (stop c h))))
     = lastTimestamp c.
Proof.
  split; [|split].
  - unfold start. destruct (isRunning c) eqn:Hrun; cbn.
    + now rewrite Hrun.
    + reflexivity.
  - unfold stop. destruct (isRunning c) eqn:Hrun; cbn [negb].
    + destruct (animationFrameId c); reflexivity.
    + cbn. now rewrite Hrun.
  - pose proof (stop_not_running c h) as Hstop.
    assert (Hts : lastTimestamp (fst (stop c h)) = lastTimestamp c).
    { unfold stop. destruct (isRunning c); cbn [negb]; [|reflexivity].
      destruct (animationFrameId c); reflexivity. }
    unfold start. rewrite Hstop. cbn. auto.
Qed.

(** ** Merging the user's configuration into the defaults *)

Lemma getOwn_setOwn_same (key : string) (value : JsValue)
    (ps : list (string * JsValue)) :
  getOwn key (setOwn key value ps) = Some value.
Proof.
  induction ps as [|[k v] ps IH]; cbn.
  - now rewrite String.eqb_refl.
  - destruct (String.eqb k key) eqn:E; cbn; rewrite E; auto.
Qed.

Lemma getOwn_setOwn_other (key key' : string) (value : JsValue)
    (ps : list (string * JsValue)) :
  key' <> key -> getOwn key' (setOwn key value ps) = getOwn key' ps.
Proof.
  intros Hne. induction ps as [|[k v] ps IH]; cbn.
  - destruct (String.eqb key key') eqn:E; [|reflexivity].
    apply String.eqb_eq in E. congruence.
  - destruct (String.eqb k key) eqn:E; cbn.
    + apply String.eqb_eq in E. subst k.
      destruct (String.eqb key key') eqn:E'; [|reflexivity].
      apply String.eqb_eq in E'. congruence.
    + now rewrite IH.
Qed.

Lemma getOwn_absent (key : string) (ps : list (string * JsValue)) :
  isIn key (map fst ps) = false -> getOwn key ps = None.
Proof.
  induction ps as [|[k v] ps IH]; cbn; [reflexivity|].
  intros Hin. apply orb_false_iff in Hin. destruct Hin as [Hk Hin].
  rewrite String.eqb_sym, Hk. now apply IH.
Qed.

(** What the [forEach] loop leaves under [key]. *)
Lemma mergeProperties_getOwn (deepMerge : JsValue -> JsValue -> JsValue)
    (target source : list (string * JsValue)) (key : string) :
  distinct (map fst source) = true ->
  forall output,
    getOwn key (mergeProperties deepMerge target source output)
    = match getOwn key source with
      | None => getOwn key output
      | Some value =>
          if _isObject value then
            match getOwn key target with
            | None => Some value
            | Some old => Some (deepMerge old value)
            end
          else Some value
      end.
Proof.
  induction source as [|[k v] source IH]; intros Hdistinct output.
  - reflexivity.
  - cbn [map fst distinct] in Hdistinct.
    apply andb_true_iff in Hdistinct. destruct Hdistinct as [Hk Hrest].
    apply negb_true_iff in Hk.
    cbn [mergeProperties getOwn]. rewrite (IH Hrest).
    destruct (String.eqb k key) eqn:E.
    + apply String.eqb_eq in E. subst k.
      rewrite (getOwn_absent key source Hk).
      unfold hasOwn, getProperty.
      destruct (_isObject v); [|apply getOwn_setOwn_same].
      destruct (getOwn key target); cbn [negb]; apply getOwn_setOwn_same.
    + assert (Hne : key <> k).
      { intros ->. now rewrite String.eqb_refl in E. }
      destruct (getOwn key source); [reflexivity|].
      destruct (_isObject v); [|now apply getOwn_setOwn_other].
      destruct (negb (hasOwn k target)); now apply getOwn_setOwn_other.
Qed.

Lemma ownNames_distinct (ps : list (string * JsValue)) :
  ownNames ps = true -> distinct (map fst ps) = true.
Proof. unfold ownNames. intros Hn. now apply andb_true_iff in Hn. Qed.

Lemma deepMerge_getOwn (target source : list (string * JsValue))
    (key : string) :
  ownNames source = true ->
  getOwn key (propertiesOf (_deepMerge (JObject target) (JObject source)))
  = match getOwn key source with
    | None => getOwn key target
    | Some value =>
        if _isObject value then
          match getOwn key target with
          | None => Some value
          | Some old => Some (_deepMerge old value)
          end
        else Some value
    end.
Proof.
  intros Hn. cbn [_deepMerge propertiesOf spread].
  now rewrite (mergeProperties_getOwn _ _ _ _ (ownNames_distinct _ Hn)).
Qed.

Lemma deepMerge_not_object (target source : JsValue) :
  _isObject source = false \/ source = JObject [] ->
  _deepMerge target source = JObject (spread target).
Proof.
  intros [Hs | ->].
  - destruct target, source; try discriminate; reflexivity.
  - destruct target; reflexivity.
Qed.

Lemma deepMerge_onto_non_object (old value : JsValue) :
  _isObject old = false -> _deepMerge old value = JObject (spread old).
Proof. destruct old, value; try discriminate; reflexivity. Qed.

(** X7.
    What [_deepMerge] gives a user of the configuration.  (i) A
    [source] that is no object ([null], [undefined], a number, a string,
    an array) or has no properties leaves the defaults as they are.
    (ii) Otherwise, property by property: one the source does not name
    keeps the target's value; one the source sets to something that is
    no object takes the source's value; one the source sets to an
    object takes that object if the target has no such property, and
    the merge of the two values if it has.  (iii) That last merge does
    not keep the source's object when the target's value is not an
    object: the result is the spread of the target's value, which for a
    number, a boolean, [null] or [undefined] is the empty object. *)
Theorem deepMerge_property_by_property :
  (forall (target : list (string * JsValue)) (source : JsValue),
      _isObject source = false \/ source = JObject [] ->
      _deepMerge (JObject target) source = JObject target)
  /\ (forall (target source : list (string * JsValue)) (key : string),
      ownNames source = true ->
      getOwn key (propertiesOf (_deepMerge (JObject target) (JObject source)))
      = match getOwn key source with
        | None => getOwn key target
        | Some value =>
            if _isObject value then
              match getOwn key target with
              | None => Some value
              | Some old => Some (_deepMerge old value)
              end
            else Some value
        end)
  /\ (forall (old value : JsValue),
      _isObject old = false ->
      _deepMerge old value = JObject (spread old)
      /\ (match old with JString _ | JArray _ => False | _ => True end ->
          _deepMerge old value = JObject [])).
Proof.
  split; [|split].
  - intros target source Hs. now rewrite deepMerge_not_object.
  - intros target source key Hn. now apply deepMerge_getOwn.
  - intros old value Hold. split.
    + now apply deepMerge_onto_non_object.
    + intros Hscalar. rewrite (deepMerge_onto_non_object _ _ Hold).
      destruct old; try reflexivity; try contradiction; discriminate.
Qed.

Lemma deepMerge_property_by_property_witness :
  getOwn "borderColor" (propertiesOf (mergedConfig someUserConfig))
  = Some (JString "#4682B4")
  /\ getOwn "dialColor" (propertiesOf (mergedConfig someUserConfig))
     = Some (JString "#FFFFFF").
Proof.
  split.
  - refine (eq_trans
              (proj1 (proj2 deepMerge_property_by_property)
                 (propertiesOf defaultConfigObject)
                 (propertiesOf someUserConfig) "borderColor"%string _) _);
      reflexivity.
  - refine (eq_trans
              (proj1 (proj2 deepMerge_property_by_property)
                 (propertiesOf defaultConfigObject)
                 (propertiesOf someUserConfig) "dialColor"%string _) _);
      reflexivity.
Defined.

(** [_deepMerge] always returns an object. *)
Lemma deepMerge_is_object (target source : JsValue) :
  _deepMerge target source = JObject (propertiesOf (_deepMerge target source)).
Proof. destruct source; reflexivity. Qed.

Lemma numberAt_merged (target source : list (string * JsValue))
    (key : string) :
  ownNames source = true ->
  match getOwn key source with
  | None | Some (JNumber _) => true
  | Some _ => false
  end = true ->
  numberAt key (propertiesOf (_deepMerge (JObject target) (JObject source)))
  = match numberAt key source with
    | Some x => Some x
    | None => numberAt key target
    end.
Proof.
  intros Hn Hkey. unfold numberAt. rewrite (deepMerge_getOwn _ _ _ Hn).
  destruct (getOwn key source) as [[ | | | | | | ]|];
    try discriminate; reflexivity.
Qed.

(** X8.
    The physics the state machine runs with, as the constructor merges
    it.  (i) Without a user configuration object, or with one that does
    not name [secondHandPhysics], it is the default physics.  (ii) With
    a user configuration whose [secondHandPhysics] is an object that
    sets some of the five properties to numbers, each property the user
    sets takes the user's number and every other one keeps its
    default. *)
Theorem constructor_physics :
  (forall userConfig : JsValue,
      _isObject userConfig = false ->
      secondHandPhysicsOf (mergedConfig userConfig) = Some defaultConfig)
  /\ (forall user : list (string * JsValue),
      ownNames user = true ->
      getOwn "secondHandPhysics" user = None ->
      secondHandPhysicsOf (mergedConfig (JObject user)) = Some defaultConfig)
  /\ (forall user physics : list (string * JsValue),
      ownNames user = true ->
      getOwn "secondHandPhysics" user = Some (JObject physics) ->
      ownNames physics = true ->
      numbersOrAbsent physics = true ->
      secondHandPhysicsOf (mergedConfig (JObject user))
      = Some {| creepDurationMs := overriding "creepDurationMs" physics 150;
                creepAngleDegrees := overriding "creepAngleDegrees" physics 2;
                overshootDegrees := overriding "overshootDegrees" physics 2;
                recoilDegrees := overriding "recoilDegrees" physics (-1.5);
                motionBlurStrength :=
                  overriding "motionBlurStrength" physics 12 |}).
Proof.
  split; [|split].
  - intros userConfig Hu. unfold mergedConfig.
    rewrite (deepMerge_not_object _ _ (or_introl Hu)). reflexivity.
  - intros user Hn Hnone. unfold mergedConfig, secondHandPhysicsOf.
    unfold defaultConfigObject at 1.
    rewrite (deepMerge_getOwn _ _ _ Hn), Hnone. reflexivity.
  - intros user physics Hn Hsome Hpn Hnum.
    unfold mergedConfig, secondHandPhysicsOf.
    unfold defaultConfigObject at 1.
    rewrite (deepMerge_getOwn _ _ _ Hn), Hsome.
    cbn [_isObject].
    match goal with
    | |- context [getOwn "secondHandPhysics" ?d] =>
        let v := eval vm_compute in (getOwn "secondHandPhysics"%string d) in
        change (getOwn "secondHandPhysics"%string d) with v
    end.
    cbv iota beta.
    unfold numbersOrAbsent in Hnum. cbn [forallb] in Hnum.
    repeat (apply andb_true_iff in Hnum;
            let H := fresh "Hk" in destruct Hnum as [H Hnum]).
    rewrite deepMerge_is_object. cbv iota beta.
    rewrite !(numberAt_merged _ _ _ Hpn) by assumption.
    unfold overriding.
    destruct (numberAt "creepDurationMs" physics),
      (numberAt "creepAngleDegrees" physics),
      (numberAt "overshootDegrees" physics),
      (numberAt "recoilDegrees" physics),
      (numberAt "motionBlurStrength" physics); reflexivity.
Qed.

Lemma constructor_physics_witness :
  secondHandPhysicsOf (mergedConfig someUserConfig)
  = Some {| creepDurationMs := 300%float; creepAngleDegrees := 2%float;
            overshootDegrees := 2%float; recoilDegrees := (-1)%float;
            motionBlurStrength := 12%float |}.
Proof.
  refine (eq_trans
            (proj2 (proj2 constructor_physics)
               (propertiesOf someUserConfig)
               [("creepDurationMs", JNumber 300);
                ("recoilDegrees", JNumber (-1))]%string _ _ _ _) _);
    reflexivity.
Defined.

(** ** The colour of the motion blur *)

Lemma hexDigitValue_range (c : ascii) :
  isHexDigit c = true -> 0 <= hexDigitValue c < 16.
Proof.
  unfold isHexDigit, hexDigitValue, isDigit.
  generalize (nat_of_ascii c). intros n Hc.
  destruct ((48 <=? n)%nat && (n <=? 57)%nat) eqn:E1.
  - apply andb_true_iff in E1. destruct E1 as [A B].
    apply Nat.leb_le in A. apply Nat.leb_le in B. lia.
  - cbn [orb] in Hc. destruct (n <=? 70)%nat eqn:E2.
    + rewrite andb_true_r in Hc.
      destruct (65 <=? n)%nat eqn:E3.
      * apply Nat.leb_le in E2. apply Nat.leb_le in E3. lia.
      * cbn [orb] in Hc. apply andb_true_iff in Hc. destruct Hc as [A B].
        apply Nat.leb_le in A. apply Nat.leb_le in E2. lia.
    + rewrite andb_false_r in Hc. cbn [orb] in Hc.
      apply andb_true_iff in Hc. destruct Hc as [A B].
      apply Nat.leb_le in A. apply Nat.leb_le in B. lia.
Qed.

(** The three bytes of [a * 65536 + b * 256 + c]. *)
Lemma three_bytes (a b c : Z) :
  0 <= a < 256 -> 0 <= b < 256 -> 0 <= c < 256 ->
  Z.land (Z.shiftr (a * 65536 + b * 256 + c) 16) 255 = a
  /\ Z.land (Z.shiftr (a * 65536 + b * 256 + c) 8) 255 = b
  /\ Z.land (a * 65536 + b * 256 + c) 255 = c.
Proof.
  intros Ha Hb Hc.
  change 255 with (Z.ones 8). rewrite !Z.land_ones by lia.
  rewrite !Z.shiftr_div_pow2 by lia.
  change (2 ^ 16) with 65536. change (2 ^ 8) with 256.
  assert (E1 : (a * 65536 + b * 256 + c) / 65536 = a).
  { symmetry. apply (Z.div_unique _ _ a (b * 256 + c)); lia. }
  assert (E2 : (a * 65536 + b * 256 + c) / 256 = a * 256 + b).
  { symmetry. apply (Z.div_unique _ _ _ c); lia. }
  rewrite E1, E2. repeat split.
  - apply Z.mod_small. lia.
  - symmetry. apply (Z.mod_unique _ _ a b); lia.
  - symmetry. apply (Z.mod_unique _ _ (a * 256 + b) c); lia.
Qed.

(** X9.
    The motion blur takes its colour from a hexadecimal
    [secondHandColor].  (i) [#RRGGBB] gives the three bytes
    [16 * R1 + R2], [16 * G1 + G2], [16 * B1 + B2], whatever the case of
    the digits.  (ii) The short form [#RGB] doubles each digit: [17 * R],
    [17 * G], [17 * B].  In both forms every channel lies in 0..255. *)
Theorem hex_colour_channels :
  (forall c1 c2 c3 c4 c5 c6 : ascii,
      forallb isHexDigit [c1; c2; c3; c4; c5; c6] = true ->
      motionBlurChannels
        (String "#" (string_of_list_ascii [c1; c2; c3; c4; c5; c6]))
      = (16 * hexDigitValue c1 + hexDigitValue c2,
         16 * hexDigitValue c3 + hexDigitValue c4,
         16 * hexDigitValue c5 + hexDigitValue c6)
      /\ 0 <= 16 * hexDigitValue c1 + hexDigitValue c2 <= 255
      /\ 0 <= 16 * hexDigitValue c3 + hexDigitValue c4 <= 255
      /\ 0 <= 16 * hexDigitValue c5 + hexDigitValue c6 <= 255)
  /\ (forall c1 c2 c3 : ascii,
      forallb isHexDigit [c1; c2; c3] = true ->
      motionBlurChannels (String "#" (string_of_list_ascii [c1; c2; c3]))
      = (17 * hexDigitValue c1, 17 * hexDigitValue c2, 17 * hexDigitValue c3)
      /\ 0 <= 17 * hexDigitValue c1 <= 255
      /\ 0 <= 17 * hexDigitValue c2 <= 255
      /\ 0 <= 17 * hexDigitValue c3 <= 255).
Proof.
  split.
  - intros c1 c2 c3 c4 c5 c6 Hall. cbn [forallb] in Hall.
    repeat (apply andb_true_iff in Hall;
            let H := fresh "Hc" in destruct Hall as [H Hall]).
    pose proof (hexDigitValue_range _ Hc) as R1.
    pose proof (hexDigitValue_range _ Hc0) as R2.
    pose proof (hexDigitValue_range _ Hc1) as R3.
    pose proof (hexDigitValue_range _ Hc2) as R4.
    pose proof (hexDigitValue_range _ Hc3) as R5.
    pose proof (hexDigitValue_range _ Hc4) as R6.
    split; [|lia].
    unfold motionBlurChannels, testHexColor.
    cbn [string_of_list_ascii allHexDigits String.length].
    rewrite Hc, Hc0, Hc1, Hc2, Hc3, Hc4. cbn [andb orb Nat.eqb].
    unfold hexChannels.
    cbn [String.length Nat.sub String.substring list_ascii_of_string
         hexLiteralValue fold_left].
    destruct (three_bytes (16 * hexDigitValue c1 + hexDigitValue c2)
                (16 * hexDigitValue c3 + hexDigitValue c4)
                (16 * hexDigitValue c5 + hexDigitValue c6)
                ltac:(lia) ltac:(lia) ltac:(lia)) as (E1 & E2 & E3).
    match goal with
    | |- (Z.land (Z.shiftr ?v 16) 255, _, _) = _ =>
        replace v with ((16 * hexDigitValue c1 + hexDigitValue c2) * 65536
                        + (16 * hexDigitValue c3 + hexDigitValue c4) * 256
                        + (16 * hexDigitValue c5 + hexDigitValue c6)) by lia
    end.
    now rewrite E1, E2, E3.
  - intros c1 c2 c3 Hall. cbn [forallb] in Hall.
    repeat (apply andb_true_iff in Hall;
            let H := fresh "Hc" in destruct Hall as [H Hall]).
    pose proof (hexDigitValue_range _ Hc) as R1.
    pose proof (hexDigitValue_range _ Hc0) as R2.
    pose proof (hexDigitValue_range _ Hc1) as R3.
    split; [|lia].
    unfold motionBlurChannels, testHexColor.
    cbn [string_of_list_ascii allHexDigits String.length].
    rewrite Hc, Hc0, Hc1. cbn [andb orb Nat.eqb].
    unfold hexChannels.
    cbn [String.length Nat.sub String.substring list_ascii_of_string
         hexLiteralValue fold_left].
    destruct (three_bytes (17 * hexDigitValue c1) (17 * hexDigitValue c2)
                (17 * hexDigitValue c3)
                ltac:(lia) ltac:(lia) ltac:(lia)) as (E1 & E2 & E3).
    match goal with
    | |- (Z.land (Z.shiftr ?v 16) 255, _, _) = _ =>
        replace v with ((17 * hexDigitValue c1) * 65536
                        + (17 * hexDigitValue c2) * 256
                        + 17 * hexDigitValue c3) by lia
    end.
    now rewrite E1, E2, E3.
Qed.

Lemma hex_colour_channels_witness :
  motionBlurChannels "#4682b4" = (70, 130, 180)
  /\ motionBlurChannels "#F0c" = (255, 0, 204).
Proof.
  split.
  - refine (eq_trans
              (proj1 (proj1 hex_colour_channels "4"%char "6"%char "8"%char
                        "2"%char "b"%char "4"%char _)) _);
      reflexivity.
  - refine (eq_trans
              (proj1 (proj2 hex_colour_channels "F"%char "0"%char "c"%char _))
              _);
      reflexivity.
Defined.

Lemma digitRuns_skip (sep s : string) :
  digitFree sep = true -> digitRuns (sep ++ s) = digitRuns s.
Proof.
  induction sep as [|c sep IH]; intros Hfree; [reflexivity|].
  cbn in Hfree. apply andb_true_iff in Hfree. destruct Hfree as [Hc Hfree].
  apply negb_true_iff in Hc. cbn [String.append digitRuns]. rewrite Hc.
  now apply IH.
Qed.

Lemma startsWithDigit_separator (sep s : string) :
  isSeparator sep = true -> startsWithDigit (sep ++ s) = false.
Proof.
  destruct sep as [|c sep]; [discriminate|].
  unfold isSeparator, digitFree. cbn. intros Hsep.
  apply andb_true_iff in Hsep. destruct Hsep as [Hc _].
  now apply negb_true_iff in Hc.
Qed.

Lemma isSeparator_digitFree (sep : string) :
  isSeparator sep = true -> digitFree sep = true.
Proof. unfold isSeparator. intros Hsep. now apply andb_true_iff in Hsep. Qed.

(** A run of digits followed by something that is no digit is one
    match of [/\d+/g]. *)
Lemma digitRuns_run (d rest : string) :
  d <> EmptyString -> forallb isDigit (list_ascii_of_string d) = true ->
  startsWithDigit rest = false ->
  digitRuns (d ++ rest) = d :: digitRuns rest.
Proof.
  induction d as [|c d IH]; intros Hne Hdigits Hrest; [congruence|].
  cbn in Hdigits. apply andb_true_iff in Hdigits.
  destruct Hdigits as [Hc Hdigits].
  cbn [String.append digitRuns]. rewrite Hc.
  destruct d as [|c' d].
  - cbn [String.append]. now rewrite Hrest.
  - assert (Hstart : startsWithDigit (String c' d ++ rest) = true).
    { cbn in Hdigits |- *. now apply andb_true_iff in Hdigits. }
    rewrite Hstart. rewrite IH; [reflexivity|discriminate|assumption..].
Qed.

Lemma isDigitRun_digits (d : string) :
  isDigitRun d = true ->
  d <> EmptyString /\ forallb isDigit (list_ascii_of_string d) = true.
Proof.
  unfold isDigitRun. intros Hd.
  apply andb_true_iff in Hd. destruct Hd as [Hd Hdigits].
  apply andb_true_iff in Hd. destruct Hd as [Hne _].
  split; [|exact Hdigits]. intros ->. discriminate.
Qed.

Lemma testHexColor_rgb (s : string) : testHexColor ("rgb" ++ s) = false.
Proof. reflexivity. Qed.

Lemma testRgb_rgb (s : string) : testRgb ("rgb" ++ s) = true.
Proof. reflexivity. Qed.

(** X10.
    The motion blur and the other colour syntaxes.  (i) For a
    [secondHandColor] that starts with [rgb], the channels are the first
    three runs of digits read as decimal integers: [rgb(R, G, B)] and
    [rgba(R, G, B, A)] give [R], [G], [B]; whatever follows the third
    run is ignored, and nothing limits the values to 0..255.  (ii) A
    colour that starts with [rgb] but holds fewer than three runs of
    digits, and (iii) every colour that is neither such a string nor [#]
    with three or six hexadecimal digits (a colour name, [hsl(...)],
    [#RGBA], [#RRGGBBAA]) get the red blur 255, 0, 0. *)
Theorem rgb_colour_channels :
  (forall sep0 d1 sep1 d2 sep2 d3 tail : string,
      digitFree sep0 = true ->
      isDigitRun d1 = true -> isSeparator sep1 = true ->
      isDigitRun d2 = true -> isSeparator sep2 = true ->
      isDigitRun d3 = true -> startsWithDigit tail = false ->
      motionBlurChannels
        ("rgb" ++ sep0 ++ d1 ++ sep1 ++ d2 ++ sep2 ++ d3 ++ tail)%string
      = (parseInt d1, parseInt d2, parseInt d3))
  /\ (forall handColor : string,
      testHexColor handColor = false ->
      (List.length (digitRuns handColor) < 3)%nat ->
      motionBlurChannels handColor = (255, 0, 0))
  /\ (forall handColor : string,
      testHexColor handColor = false -> testRgb handColor = false ->
      motionBlurChannels handColor = (255, 0, 0)).
Proof.
  split; [|split].
  - intros sep0 d1 sep1 d2 sep2 d3 tail H0 H1 S1 H2 S2 H3 Ht.
    destruct (isDigitRun_digits _ H1) as [N1 D1].
    destruct (isDigitRun_digits _ H2) as [N2 D2].
    destruct (isDigitRun_digits _ H3) as [N3 D3].
    unfold motionBlurChannels.
    rewrite testHexColor_rgb, testRgb_rgb.
    rewrite (digitRuns_skip "rgb") by reflexivity.
    rewrite (digitRuns_skip sep0) by assumption.
    rewrite (digitRuns_run d1)
      by (try assumption; now apply startsWithDigit_separator).
    rewrite (digitRuns_skip sep1) by now apply isSeparator_digitFree.
    rewrite (digitRuns_run d2)
      by (try assumption; now apply startsWithDigit_separator).
    rewrite (digitRuns_skip sep2) by now apply isSeparator_digitFree.
    rewrite (digitRuns_run d3) by assumption.
    reflexivity.
  - intros handColor Hhex Hfew. unfold motionBlurChannels. rewrite Hhex.
    destruct (testRgb handColor); [|reflexivity].
    destruct (digitRuns handColor) as [|p0 [|p1 [|p2 rest]]];
      try reflexivity.
    cbn in Hfew. lia.
  - intros handColor Hhex Hrgb. unfold motionBlurChannels.
    now rewrite Hhex, Hrgb.
Qed.

Lemma rgb_colour_channels_witness :
  motionBlurChannels "rgba(70, 130, 180, 0.5)" = (70, 130, 180)
  /\ motionBlurChannels "rgb(300,0,0)" = (300, 0, 0)
  /\ motionBlurChannels "steelblue" = (255, 0, 0).
Proof.
  split; [|split].
  - refine (eq_trans
              (proj1 rgb_colour_channels "a(" "70" ", " "130" ", " "180"
                 ", 0.5)" _ _ _ _ _ _ _)%string _);
      reflexivity.
  - refine (eq_trans
              (proj1 rgb_colour_channels "(" "300" "," "0" "," "0" ")"
                 _ _ _ _ _ _ _)%string _);
      reflexivity.
  - apply (proj2 (proj2 rgb_colour_channels) "steelblue"%string);
      reflexivity.
Defined.

(** ** Drawing *)

(** The decimal literals of the drawing code, on doubles. *)
Lemma decimal_literals :
  decimal 15 100 = 0.15%float /\ decimal 85 100 = 0.85%float
  /\ decimal 12 100 = 0.12%float /\ decimal 12 10 = 1.2%float.
Proof. repeat split; reflexivity. Qed.

Lemma scoped_app {num} (a b : list (CanvasOp num)) (depth : nat) :
  scoped depth (a ++ b)
  = match scoped depth a with
    | Some d => scoped d b
    | None => None
    end.
Proof.
  revert depth. induction a as [|op a IH]; intros depth; [reflexivity|].
  destruct op; cbn [app scoped]; try apply IH;
    destruct depth; try reflexivity; apply IH.
Qed.

Lemma scoped_flat_map {num} {A : Type} (f : A -> list (CanvasOp num))
    (l : list A) (depth : nat) :
  (forall x d, scoped d (f x) = Some d) ->
  scoped depth (flat_map f l) = Some depth.
Proof.
  intros Hf. induction l as [|x l IH]; [reflexivity|].
  cbn [flat_map]. now rewrite scoped_app, Hf.
Qed.

Section DrawingFacts.

Context {num : Type} `{JsNumber num} `{JsMath num}.
Variable cfg : ClockConfig num.
Variable dims : Dimensions num.

Lemma scoped_drawTick (i : Z) (depth : nat) :
  scoped depth (drawTick cfg dims i) = Some depth.
Proof.
  unfold drawTick.
  destruct (Z.rem i 5 =? 0)%Z;
    [destruct (showNumerals cfg || _) | destruct (showMinorTicks cfg)];
    reflexivity.
Qed.

Lemma scoped_drawNumeral (i : Z) (depth : nat) :
  scoped depth (drawNumeral dims i) = Some depth.
Proof. reflexivity. Qed.

Lemma scoped_drawClockFace (depth : nat) :
  scoped depth (_drawClockFace cfg dims) = Some depth.
Proof.
  unfold _drawClockFace.
  destruct (borderWidth cfg >? of_Z 0)%js; destruct (showNumerals cfg);
    repeat first
      [ rewrite scoped_app
      | rewrite (scoped_flat_map (drawNumeral dims) _ _ scoped_drawNumeral)
      | rewrite (scoped_flat_map (drawTick cfg dims) _ _ scoped_drawTick)
      | progress cbn [scoped] ];
    reflexivity.
Qed.

Lemma scoped_drawHand (angleDegrees length width : num) (color : string)
    (shadowConfig : Shadow num) (isSecondHand : bool)
    (counterWeightLength : num) (depth : nat) :
  scoped depth
    (_drawHand cfg dims angleDegrees length width color shadowConfig
       isSecondHand counterWeightLength) = Some depth.
Proof.
  unfold _drawHand.
  destruct (isSecondHand && (counterWeightLength >? of_Z 0)%js);
    destruct (centerPinRadius cfg >? of_Z 0)%js; reflexivity.
Qed.

Lemma scoped_drawHands (hourAngle minuteAngle secondAngle : num) (b : Z)
    (depth : nat) :
  scoped depth (_drawHands cfg dims hourAngle minuteAngle secondAngle b)
  = Some depth.
Proof.
  unfold _drawHands.
  repeat first [rewrite scoped_app | rewrite scoped_drawHand].
  reflexivity.
Qed.

End DrawingFacts.




(** ** Which frames are blurred *)

(** X14.
    From a named phase, a step signals a blur exactly when the hand
    jumps: on a tick, or when it leaves OVERSHOOT or RECOIL.  The signal
    is -1, 0 or +1, and it is 0 on every step that stays in or moves
    between SETTLED and CREEPING. *)
Theorem blur_only_on_jumps {num} `{JsNumber num}
    (cfg : SecondHandPhysics num) (s : SecondHand num) (sec ms : Z) :
  secondHandAnimationPhase s <> OTHER ->
  (blurSecondHandEffect (secondHandPhysics cfg s sec ms) = -1
   \/ blurSecondHandEffect (secondHandPhysics cfg s sec ms) = 0
   \/ blurSecondHandEffect (secondHandPhysics cfg s sec ms) = 1)
  /\ (blurSecondHandEffect (secondHandPhysics cfg s sec ms) <> 0
      <-> sec <> lastSystemSecond s
          \/ secondHandAnimationPhase s = OVERSHOOT
          \/ secondHandAnimationPhase s = RECOIL).
Proof.
  intros Hp.
  destruct (Z.eq_dec sec (lastSystemSecond s)) as [Heq | Hne].
  - unfold secondHandPhysics.
    rewrite (proj2 (newSecondDetected_false s sec) Heq).
    destruct (secondHandAnimationPhase s) eqn:E; try contradiction.
    + assert (Hb : blurSecondHandEffect
                     (if ((of_Z (1000 - ms) <=? creepDurationMs cfg)%js
                          && (0 <? 1000 - ms))
                      then creepingCase cfg s ms
                      else restingHand s) = 0).
      { destruct (_ && _); [|reflexivity].
        destruct (creepingCase_cases cfg s ms) as [-> | ->]; reflexivity. }
      unfold restingHand in Hb. rewrite Hb. split; [auto|].
      split; [congruence|]. intros [Ht | [Ho | Hr]]; congruence.
    + assert (Hb : blurSecondHandEffect (creepingCase cfg s ms) = 0).
      { destruct (creepingCase_cases cfg s ms) as [-> | ->]; reflexivity. }
      rewrite Hb. split; [auto|].
      split; [congruence|]. intros [Ht | [Ho | Hr]]; congruence.
    + cbn. split; [auto|]. split; [auto|discriminate].
    + cbn. split; [auto|]. split; [auto|discriminate].
  - rewrite (step_tick cfg s sec ms Hne). cbn.
    split; [auto|]. split; [auto|discriminate].
Qed.

Lemma blur_only_on_jumps_witness :
  blurSecondHandEffect
    (secondHandPhysics defaultConfig
       (run defaultConfig (startHand 15000) [15000; 15020]) 15 40) <> 0
  <-> 15 <> lastSystemSecond
              (run defaultConfig (startHand 15000) [15000; 15020])
      \/ secondHandAnimationPhase
           (run defaultConfig (startHand 15000) [15000; 15020]) = OVERSHOOT
      \/ secondHandAnimationPhase
           (run defaultConfig (startHand 15000) [15000; 15020]) = RECOIL.
Proof.
  apply (blur_only_on_jumps defaultConfig
           (run defaultConfig (startHand 15000) [15000; 15020]) 15 40).
  vm_compute. discriminate.
Defined.

(** ** The creep never runs backwards *)

Module CreepFacts.

Local Open Scope Q_scope.

Lemma Math_min_monotone (a x y : Q) :
  x <= y -> Exact.Math_min a x <= Exact.Math_min a y.
Proof.
  intros Hxy.
  destruct (ExactFacts.Math_min_spec a x) as (A1 & A2 & [E | E]);
    destruct (ExactFacts.Math_min_spec a y) as (B1 & B2 & [F | F]); lra.
Qed.

Lemma Math_max_monotone (a x y : Q) :
  x <= y -> Exact.Math_max a x <= Exact.Math_max a y.
Proof.
  intros Hxy.
  destruct (ExactFacts.Math_max_spec a x) as (A1 & A2 & [E | E]);
    destruct (ExactFacts.Math_max_spec a y) as (B1 & B2 & [F | F]); lra.
Qed.

(** The creep progress grows with the milliseconds. *)
Lemma progress_monotone (d : Q) (ms1 ms2 : Z) :
  0 < d -> (ms1 <= ms2)%Z ->
  Exact.Math_max 0 (Exact.Math_min 1 ((d - inject_Z (1000 - ms1)) / d))
  <= Exact.Math_max 0 (Exact.Math_min 1 ((d - inject_Z (1000 - ms2)) / d)).
Proof.
  intros Hd Hms. apply Math_max_monotone, Math_min_monotone.
  unfold Qdiv. apply Qmult_le_compat_r.
  - assert (Hz : inject_Z (1000 - ms2) <= inject_Z (1000 - ms1)).
    { rewrite <- Zle_Qle. lia. }
    lra.
  - apply Qlt_le_weak, Qinv_lt_0_compat, Hd.
Qed.

End CreepFacts.



Module DefaultCreep.

Lemma creepWindow_spec (ms : Z) : 850 <= ms <= 999 -> In ms creepWindow.
Proof.
  intros Hms. unfold creepWindow. apply in_map_iff.
  exists (Z.to_nat (ms - 850)). split; [lia|]. apply in_seq. lia.
Qed.

Lemma creepWindow_inside :
  forallb (fun ms => PrimFloat.leb (Binary64.of_Z (1000 - ms)) 150)
    creepWindow = true.
Proof. vm_compute. reflexivity. Qed.

Lemma inside (ms : Z) :
  850 <= ms <= 999 ->
  (of_Z (1000 - ms) <=? creepDurationMs defaultConfig)%js = true.
Proof.
  intros Hms. pose proof creepWindow_inside as Hall.
  rewrite forallb_forall in Hall. apply Hall, creepWindow_spec, Hms.
Qed.

Lemma creepOrdered_all : forallb creepOrdered (upto 60) = true.
Proof. vm_compute. reflexivity. Qed.

Lemma ordered (k ms1 ms2 : Z) :
  0 <= k < 60 -> 850 <= ms1 -> ms1 <= ms2 -> ms2 <= 999 ->
  PrimFloat.leb
    (currentSecondHandVisualAngle
       (creptHand defaultConfig
          (showing (secondBaseAngle k) (secondBaseAngle k)) ms1))
    (currentSecondHandVisualAngle
       (creptHand defaultConfig
          (showing (secondBaseAngle k) (secondBaseAngle k)) ms2)) = true.
Proof.
  intros Hk H1 H12 H2. pose proof creepOrdered_all as Hall.
  rewrite forallb_forall in Hall.
  specialize (Hall k (upto_spec 60 k ltac:(lia))).
  unfold creepOrdered in Hall. cbv zeta in Hall.
  rewrite forallb_forall in Hall.
  set (shown := fun ms : Z =>
         (ms, currentSecondHandVisualAngle
                (creptHand defaultConfig
                   (showing (secondBaseAngle k) (secondBaseAngle k)) ms)))
    in *.
  specialize (Hall (shown ms1)
                (in_map shown _ _ (creepWindow_spec ms1 ltac:(lia)))).
  rewrite forallb_forall in Hall.
  specialize (Hall (shown ms2)
                (in_map shown _ _ (creepWindow_spec ms2 ltac:(lia)))).
  cbn [shown fst snd] in Hall.
  apply orb_true_iff in Hall. destruct Hall as [Hlt | Hle]; [|exact Hle].
  apply Z.ltb_lt in Hlt. lia.
Qed.

End DefaultCreep.

(** X16.
    On doubles, with the default configuration: in every state a run
    of frames from [start()] reaches in phase CREEPING, two further
    frames of the same second inside the creep window (milliseconds 850
    to 999, in order) both stay in CREEPING, and the second never shows
    a smaller angle than the first. *)
Theorem creep_never_runs_backwards_binary64
    (now0 : Date.t) (nows : list Date.t) (ms1 ms2 : Z) :
  secondHandAnimationPhase (run defaultConfig (startHand now0) nows)
  = CREEPING ->
  850 <= ms1 -> ms1 <= ms2 -> ms2 <= 999 ->
  let s := run defaultConfig (startHand now0) nows in
  let s1 := secondHandPhysics defaultConfig s (lastSystemSecond s) ms1 in
  let s2 := secondHandPhysics defaultConfig s1 (lastSystemSecond s) ms2 in
  secondHandAnimationPhase s1 = CREEPING
  /\ secondHandAnimationPhase s2 = CREEPING
  /\ PrimFloat.leb (currentSecondHandVisualAngle s1)
       (currentSecondHandVisualAngle s2) = true.
Proof.
  intros Hp H1 H12 H2 s s1 s2.
  assert (Hbase : onBase s).
  { apply (run_invariant defaultConfig onBase).
    - intros s' now Hs'. now apply DefaultExcursion.step_onBase.
    - split; [discriminate|]. exists (Date.getSeconds now0).
      split; [apply getSeconds_range | reflexivity]. }
  destruct Hbase as (_ & k & Hk & Ht).
  assert (E1 : s1 = creptHand defaultConfig s ms1).
  { unfold s1. apply step_creeping_inside;
      [exact Hp | reflexivity | lia | apply DefaultCreep.inside; lia]. }
  assert (E2 : s2 = creptHand defaultConfig s1 ms2).
  { unfold s2. apply step_creeping_inside;
      [rewrite E1; reflexivity | rewrite E1; reflexivity | lia
      | apply DefaultCreep.inside; lia]. }
  rewrite E2, E1.
  split; [reflexivity|]. split; [reflexivity|].
  pose proof (DefaultCreep.ordered k ms1 ms2 Hk H1 H12 H2) as Hord.
  cbn [creptHand showing currentSecondHandVisualAngle targetSecondBaseAngle]
    in Hord |- *.
  rewrite Ht. exact Hord.
Qed.

Lemma creep_never_runs_backwards_binary64_witness :
  secondHandAnimationPhase
    (run defaultConfig (startHand 20000) [20000; 20020; 20040; 20860])
  = CREEPING
  /\ PrimFloat.leb
       (currentSecondHandVisualAngle
          (secondHandPhysics defaultConfig
             (run defaultConfig (startHand 20000)
                [20000; 20020; 20040; 20860]) 20 880))
       (currentSecondHandVisualAngle
          (secondHandPhysics defaultConfig
             (secondHandPhysics defaultConfig
                (run defaultConfig (startHand 20000)
                   [20000; 20020; 20040; 20860]) 20 880) 20 900))
     = true.
Proof.
  split.
  - vm_compute. reflexivity.
  - apply (creep_never_runs_backwards_binary64 20000
             [20000; 20020; 20040; 20860] 880 900).
    + vm_compute. reflexivity.
    + lia.
    + lia.
    + lia.
Defined.

(** ** The size of the dial *)

